(** * analyze-logs: a shallow embedding of [main.py] and its verification

    The program reads a log file, applies up to four regular-expression
    extractors to every line and collects the results in a table that is
    printed or written as CSV.

    Modelling choices.
    - A Python [str] is a list of code points.  Code points are restricted to
      U+0000..U+00FF and represented by [ascii]; the character tables below
      ([isspace], [isdecimal], [isalnum]) are CPython's tables on that range.
    - [re] is modelled by a backtracking matcher over the parsed form of a
      pattern ([regex]).  The three patterns that the program fixes are given
      in parsed form and checked against the pattern parser of this file.
      The user's pattern goes through an abstract [re_compile]; [sre] is the
      instance built from the parser and the matcher of this file.
    - Exceptions are an error monad, logging and output are a trace of
      events. *)

From Stdlib Require Import Ascii String.
From Stdlib Require Import List Bool Arith ZArith Lia.
Import ListNotations.

Open Scope string_scope.
Open Scope list_scope.
Open Scope nat_scope.

(** ** Python strings *)

Definition str := list ascii.

Coercion list_ascii_of_string : string >-> list.

Definition LF : ascii := "010"%char.
Definition CR : ascii := "013"%char.

Module Unicode.

Definition ord (c : ascii) : nat := nat_of_ascii c.

Definition between (lo hi : nat) (c : ascii) : bool :=
  (lo <=? ord c) && (ord c <=? hi).

(** [Py_UNICODE_ISSPACE]: used by [str.strip] and by [\s]. *)
Definition isspace (c : ascii) : bool :=
  between 9 13 c || between 28 32 c || (ord c =? 133) || (ord c =? 160).

(** [Py_UNICODE_ISDECIMAL]: used by [\d]. *)
Definition isdecimal (c : ascii) : bool := between 48 57 c.

(** [Py_UNICODE_ISALNUM]. *)
Definition isalnum (c : ascii) : bool :=
  isdecimal c || between 65 90 c || between 97 122 c
  || (ord c =? 170) || between 178 179 c || (ord c =? 181)
  || between 185 186 c || between 188 190 c
  || between 192 214 c || between 216 246 c || between 248 255 c.

(** [\w]: alphanumeric or underscore. *)
Definition isword (c : ascii) : bool := isalnum c || (ord c =? 95).

End Unicode.

Import Unicode.

(** [str.lstrip], [str.rstrip], [str.strip] without argument. *)
Fixpoint lstrip (s : str) : str :=
  match s with
  | [] => []
  | c :: t => if isspace c then lstrip t else s
  end.

Definition rstrip (s : str) : str := rev (lstrip (rev s)).

Definition strip (s : str) : str := rstrip (lstrip s).

(** ** Reading a text file

    [open(path, "r")] reads with universal newlines: CR LF and a lone CR
    become LF.  [readlines] cuts after every LF and keeps it. *)

Fixpoint translate_newlines (s : str) : str :=
  match s with
  | [] => []
  | c :: t =>
      if Ascii.eqb c CR then
        match t with
        | d :: t' => if Ascii.eqb d LF then LF :: translate_newlines t'
                     else LF :: translate_newlines t
        | [] => [LF]
        end
      else c :: translate_newlines t
  end.

Fixpoint cut_lines (cur : str) (s : str) : list str :=
  match s with
  | [] => match cur with [] => [] | _ => [rev cur] end
  | c :: t => if Ascii.eqb c LF then rev (c :: cur) :: cut_lines [] t
              else cut_lines (c :: cur) t
  end.

Definition readlines (content : str) : list str :=
  cut_lines [] (translate_newlines content).

(** [l[:n]] for a Python list and an integer. *)
Definition slice_to {A} (l : list A) (n : Z) : list A :=
  if (n <? 0)%Z then firstn (length l - Z.to_nat (- n)) l
  else firstn (Z.to_nat n) l.

(** ** Regular expressions *)

Module Re.

Inductive category := Digit | Space | Word.

Inductive item :=
| IChar (c : ascii)
| IRange (lo hi : ascii)
| ICategory (k : category) (negated : bool).

Inductive anchor :=
| AtBeginning          (* ^ and \A *)
| AtEnd                (* $ *)
| AtEndString          (* \Z *)
| AtBoundary           (* \b *)
| AtNonBoundary.       (* \B *)

(** The parsed form of a pattern, named after [sre_parse]'s opcodes. *)
Inductive regex :=
| Empty
| Literal (c : ascii)
| AnyChar                                   (* . *)
| InSet (negated : bool) (items : list item)
| At (a : anchor)
| Seq (a b : regex)
| Branch (a b : regex)
| Subpattern (group : nat) (r : regex)
| MaxRepeat (lo : nat) (hi : option nat) (r : regex)
| MinRepeat (lo : nat) (hi : option nat) (r : regex).

Definition in_category (k : category) (c : ascii) : bool :=
  match k with
  | Digit => isdecimal c
  | Space => isspace c
  | Word => isword c
  end.

Definition in_item (i : item) (c : ascii) : bool :=
  match i with
  | IChar x => Ascii.eqb x c
  | IRange lo hi => between (ord lo) (ord hi) c
  | ICategory k n => xorb n (in_category k c)
  end.

Definition in_set (negated : bool) (items : list item) (c : ascii) : bool :=
  xorb negated (existsb (fun i => in_item i c) items).

(** A position in the subject: the characters already passed (last one
    first), the characters ahead, and the groups closed so far (latest
    first). *)
Record state := State {
  before : str;
  rest : str;
  caps : list (nat * str)
}.

Definition at_holds (a : anchor) (s : state) : bool :=
  match a with
  | AtBeginning => match before s with [] => true | _ => false end
  | AtEnd => match rest s with
             | [] => true
             | [c] => Ascii.eqb c LF
             | _ => false
             end
  | AtEndString => match rest s with [] => true | _ => false end
  | AtBoundary =>
      xorb (match before s with c :: _ => isword c | [] => false end)
           (match rest s with c :: _ => isword c | [] => false end)
  | AtNonBoundary =>
      negb (xorb (match before s with c :: _ => isword c | [] => false end)
                 (match rest s with c :: _ => isword c | [] => false end))
  end.

(** One character, if it satisfies [f]. *)
Definition step (f : ascii -> bool) (s : state) : list state :=
  match rest s with
  | c :: t => if f c then [State (c :: before s) t (caps s)] else []
  | [] => []
  end.

(** The text between two positions of one subject. *)
Definition consumed (s s' : state) : str :=
  firstn (length (rest s) - length (rest s')) (rest s).

Definition close_group (g : nat) (s s' : state) : state :=
  State (before s') (rest s') ((g, consumed s s') :: caps s').

Definition progressed (s s' : state) : bool :=
  length (rest s') <? length (rest s).

(** The optional iterations of a repeat: greedy ones try another
    iteration first, lazy ones try to stop first.  An iteration that
    consumes nothing ends the loop. *)
Fixpoint more_max (body : state -> list state) (fuel : nat) (s : state)
  : list state :=
  match fuel with
  | 0 => [s]
  | S f =>
      flat_map (fun s1 => if progressed s s1 then more_max body f s1 else [])
               (body s) ++ [s]
  end.

Fixpoint more_min (body : state -> list state) (fuel : nat) (s : state)
  : list state :=
  match fuel with
  | 0 => [s]
  | S f =>
      s :: flat_map (fun s1 => if progressed s s1 then more_min body f s1
                               else [])
                    (body s)
  end.

(** The mandatory iterations, then [tail]. *)
Fixpoint at_least (body : state -> list state) (lo : nat)
         (tail : state -> list state) (s : state) : list state :=
  match lo with
  | 0 => tail s
  | S n => flat_map (at_least body n tail) (body s)
  end.

(** How many optional iterations can still be useful at [s]. *)
Definition optional (lo : nat) (hi : option nat) (s : state) : nat :=
  match hi with
  | Some h => h - lo
  | None => length (rest s)
  end.

(** All the ways [r] matches at [s], in the order in which a backtracking
    matcher tries them: the head is the match that [re] reports. *)
Fixpoint results (r : regex) (s : state) : list state :=
  match r with
  | Empty => [s]
  | Literal c => step (Ascii.eqb c) s
  | AnyChar => step (fun x => negb (Ascii.eqb x LF)) s
  | InSet n items => step (in_set n items) s
  | At a => if at_holds a s then [s] else []
  | Seq a b => flat_map (results b) (results a s)
  | Branch a b => results a s ++ results b s
  | Subpattern g r' => map (close_group g s) (results r' s)
  | MaxRepeat lo hi r' =>
      at_least (results r') lo
               (fun s' => more_max (results r') (optional lo hi s') s') s
  | MinRepeat lo hi r' =>
      at_least (results r') lo
               (fun s' => more_min (results r') (optional lo hi s') s') s
  end.

(** A match object: the whole match and the groups. *)
Record Match := MkMatch {
  whole : str;
  groups : list (nat * str)
}.

(** [m.group(i)]: [None] for a group that did not take part. *)
Definition group (m : Match) (i : nat) : option str :=
  match i with
  | 0 => Some (whole m)
  | _ => option_map snd (find (fun p => fst p =? i) (groups m))
  end.

(** [re.search] on a parsed pattern: the first start position, from the
    left, at which the pattern matches. *)
Fixpoint search_from (r : regex) (passed : str) (ahead : str)
  : option Match :=
  let s := State passed ahead [] in
  match results r s with
  | s' :: _ => Some (MkMatch (consumed s s') (caps s'))
  | [] =>
      match ahead with
      | [] => None
      | c :: t => search_from r (c :: passed) t
      end
  end.

Definition search (r : regex) (subject : str) : option Match :=
  search_from r [] subject.

End Re.

(** ** The pattern parser

    [sre_parse] for the part of the pattern syntax made of literals, [.],
    [^], [$], the escapes [\d \D \s \S \w \W \b \B \A \Z \n \t \r \f \v \a]
    and escaped punctuation, character sets, capturing and [(?:...)] groups,
    [|], and the repeats [* + ? {m} {m,} {,n} {m,n}] with their lazy forms.
    [None] stands for [re.error] (and for syntax outside this part). *)

Module Parse.

Import Re.
Open Scope char_scope.

Definition is_digit (c : ascii) : bool := between 48 57 c.

Definition is_ascii_letter (c : ascii) : bool :=
  between 65 90 c || between 97 122 c.

Fixpoint take_digits (p : str) : str * str :=
  match p with
  | c :: t => if is_digit c
              then let (d, r) := take_digits t in (c :: d, r)
              else ([], p)
  | [] => ([], [])
  end.

Definition int_of (d : str) : nat :=
  fold_left (fun n c => 10 * n + (ord c - 48)) d 0.

(** Escapes that stand for one character, in and out of a set. *)
Definition char_escape (c : ascii) : option ascii :=
  match c with
  | "n" => Some LF
  | "t" => Some "009"
  | "r" => Some CR
  | "f" => Some "012"
  | "v" => Some "011"
  | "a" => Some "007"
  | _ => if is_ascii_letter c || is_digit c then None else Some c
  end.

Definition category_escape (c : ascii) : option item :=
  match c with
  | "d" => Some (ICategory Digit false)
  | "D" => Some (ICategory Digit true)
  | "s" => Some (ICategory Space false)
  | "S" => Some (ICategory Space true)
  | "w" => Some (ICategory Word false)
  | "W" => Some (ICategory Word true)
  | _ => None
  end.

(** [_escape]: an escape outside a set. *)
Definition escape (c : ascii) : option regex :=
  match category_escape c with
  | Some i => Some (InSet false [i])
  | None =>
      match c with
      | "b" => Some (At AtBoundary)
      | "B" => Some (At AtNonBoundary)
      | "A" => Some (At AtBeginning)
      | "Z" => Some (At AtEndString)
      | _ => option_map Literal (char_escape c)
      end
  end.

(** [_class_escape]: an escape inside a set. *)
Definition class_escape (c : ascii) : option item :=
  match category_escape c with
  | Some i => Some i
  | None =>
      match c with
      | "b" => Some (IChar "008")
      | _ => option_map IChar (char_escape c)
      end
  end.

(** [sourcematch]: what follows [c] when [p] starts with [c]. *)
Definition after (c : ascii) (p : str) : option str :=
  match p with
  | x :: t => if Ascii.eqb x c then Some t else None
  | [] => None
  end.

(** One member of a set: the item and what follows it. *)
Definition set_member (p : str) : option (item * str) :=
  match p with
  | [] => None
  | c :: t =>
      if Ascii.eqb c "\" then
        match t with
        | e :: t' => option_map (fun i => (i, t')) (class_escape e)
        | [] => None
        end
      else Some (IChar c, t)
  end.

(** The members of a set up to the closing bracket; [first] is true until
    one member has been read, so that a leading bracket is a literal. *)
Fixpoint set_items (fuel : nat) (first : bool) (p : str)
  : option (list item * str) :=
  match fuel with
  | 0 => None
  | S f =>
      match after "]" p with
      | Some t => if first then set_range f (IChar "]") t else Some ([], t)
      | None =>
          match set_member p with
          | Some (i, t) => set_range f i t
          | None => None
          end
      end
  end
with set_range (fuel : nat) (i : item) (p : str)
  : option (list item * str) :=
  match fuel with
  | 0 => None
  | S f =>
      match after "-" p with
      | Some t =>
          match after "]" t with
          | Some t' => Some ([i; IChar "-"], t')
          | None =>
              match set_member t with
              | Some (j, t') =>
                  match i, j with
                  | IChar lo, IChar hi =>
                      if (ord hi <? ord lo)%nat then None
                      else match set_items f false t' with
                           | Some (l, r) => Some (IRange lo hi :: l, r)
                           | None => None
                           end
                  | _, _ => None
                  end
              | None => None
              end
          end
      | None =>
          match set_items f false p with
          | Some (l, r) => Some (i :: l, r)
          | None => None
          end
      end
  end.

Definition parse_set (p : str) : option (regex * str) :=
  let (negated, p') :=
    match after "^" p with Some t => (true, t) | None => (false, p) end in
  match set_items (2 * length p' + 2) true p' with
  | Some (l, r) => Some (InSet negated l, r)
  | None => None
  end.

(** What follows an opening brace. *)
Inductive braces :=
| NotARepeat                                 (* the brace is a literal *)
| Bounds (lo : nat) (hi : option nat) (rem : str)
| BadBounds.

Definition curly (p : str) : braces :=
  match after "}" p with
  | Some _ => NotARepeat
  | None =>
      let (lo, p1) := take_digits p in
      let (hi, p2) :=
        match after "," p1 with
        | Some t => take_digits t
        | None => (lo, p1)
        end in
      match after "}" p2 with
      | Some rem =>
          let mn := match lo with [] => 0 | _ => int_of lo end in
          match hi with
          | [] => Bounds mn None rem
          | _ => if (int_of hi <? mn)%nat then BadBounds
                 else Bounds mn (Some (int_of hi)) rem
          end
      | None => NotARepeat
      end
  end.

(** A repeat operator at the head of [p], if there is one. *)
Definition repeat_op (p : str) : braces :=
  match p with
  | [] => NotARepeat
  | c :: t =>
      match c with
      | "*" => Bounds 0 None t
      | "+" => Bounds 1 None t
      | "?" => Bounds 0 (Some 1) t
      | "{" => curly t
      | _ => NotARepeat
      end
  end.

(** The repeat that follows an item, if any. *)
Definition quantify (a : regex) (p : str) : option (regex * str) :=
  match repeat_op p with
  | NotARepeat => Some (a, p)
  | BadBounds => None
  | Bounds lo hi t =>
      match a with
      | At _ => None                                   (* nothing to repeat *)
      | _ =>
          let (q, t') :=
            match after "?" t with
            | Some u => (MinRepeat lo hi a, u)
            | None => (MaxRepeat lo hi a, t)
            end in
          match repeat_op t' with
          | NotARepeat => Some (q, t')
          | _ => None                                  (* multiple repeat *)
          end
      end
  end.

Definition cat (a b : regex) : regex :=
  match b with
  | Empty => a
  | _ => Seq a b
  end.

Definition expect_close (g : option nat) (r : option (regex * str * nat))
  : option (regex * str * nat) :=
  match r with
  | Some (a, p, n) =>
      match after ")" p with
      | Some t =>
          Some (match g with Some i => Subpattern i a | None => a end, t, n)
      | None => None                   (* missing ), unterminated subpattern *)
      end
  | None => None
  end.

(** [_parse_sub] and [_parse]; [g] is the number of the next group. *)
Fixpoint parse_alt (fuel : nat) (p : str) (g : nat) {struct fuel}
  : option (regex * str * nat) :=
  match fuel with
  | 0 => None
  | S f =>
      match parse_seq f p g with
      | Some (a, p1, g1) =>
          match after "|" p1 with
          | Some p2 =>
              match parse_alt f p2 g1 with
              | Some (b, p3, g3) => Some (Branch a b, p3, g3)
              | None => None
              end
          | None => Some (a, p1, g1)
          end
      | None => None
      end
  end
with parse_seq (fuel : nat) (p : str) (g : nat) {struct fuel}
  : option (regex * str * nat) :=
  match fuel with
  | 0 => None
  | S f =>
      match p with
      | [] => Some (Empty, p, g)
      | c :: t =>
          if Ascii.eqb c "|" || Ascii.eqb c ")" then Some (Empty, p, g)
          else
            match parse_atom f c t g with
            | Some (a, p1, g1) =>
                match quantify a p1 with
                | Some (q, p2) =>
                    match parse_seq f p2 g1 with
                    | Some (b, p3, g3) => Some (cat q b, p3, g3)
                    | None => None
                    end
                | None => None
                end
            | None => None
            end
      end
  end
with parse_atom (fuel : nat) (c : ascii) (t : str) (g : nat) {struct fuel}
  : option (regex * str * nat) :=
  match fuel with
  | 0 => None
  | S f =>
      match c with
      | "(" =>
          match after "?" t with
          | Some t1 =>
              match after ":" t1 with
              | Some t2 => expect_close None (parse_alt f t2 g)
              | None => None
              end
          | None => expect_close (Some g) (parse_alt f t (S g))
          end
      | "[" => option_map (fun x => (fst x, snd x, g)) (parse_set t)
      | "\" =>
          match t with
          | e :: t' => option_map (fun r => (r, t', g)) (escape e)
          | [] => None                                       (* bad escape *)
          end
      | "." => Some (AnyChar, t, g)
      | "^" => Some (At AtBeginning, t, g)
      | "$" => Some (At AtEnd, t, g)
      | "*" | "+" | "?" => None                        (* nothing to repeat *)
      | "{" =>
          match curly t with
          | NotARepeat => Some (Literal c, t, g)
          | _ => None                                  (* nothing to repeat *)
          end
      | _ => Some (Literal c, t, g)
      end
  end.

(** The whole pattern; a closing parenthesis left over is unbalanced. *)
Definition parse (pattern : string) : option regex :=
  let p : str := list_ascii_of_string pattern in
  match parse_alt (3 * length p + 3) p 1 with
  | Some (r, [], _) => Some r
  | _ => None
  end.

End Parse.

Import Re.

(** ** Values, records and tables *)

(** What the program stores in a record: a string or [None]. *)
Inductive value :=
| PyNone
| PyStr (s : str).

Definition value_of (o : option str) : value :=
  match o with
  | Some s => PyStr s
  | None => PyNone
  end.

(** A Python dict with string keys, in insertion order. *)
Definition dict := list (string * value).

Fixpoint dict_set (d : dict) (k : string) (v : value) : dict :=
  match d with
  | [] => [(k, v)]
  | (k', v') :: t => if String.eqb k' k then (k, v) :: t
                     else (k', v') :: dict_set t k v
  end.

Fixpoint dict_get (d : dict) (k : string) : option value :=
  match d with
  | [] => None
  | (k', v) :: t => if String.eqb k' k then Some v else dict_get t k
  end.

Definition keys (d : dict) : list string := map fst d.

(** A [pandas.DataFrame] of object columns: the column labels and the rows;
    a cell is [None] where the record had no such key (pandas shows NaN). *)
Record DataFrame := {
  columns : list string;
  rows : list (list (option value))
}.

Definition add_new (cols : list string) (k : string) : list string :=
  if existsb (String.eqb k) cols then cols else cols ++ [k].

(** [pd.DataFrame(data)] for a list of dicts: the columns are the keys in
    the order in which they first appear. *)
Definition DataFrame_of_records (data : list dict) : DataFrame :=
  let cols := fold_left (fun cs d => fold_left add_new (keys d) cs) data [] in
  {| columns := cols;
     rows := map (fun d => map (dict_get d) cols) data |}.

(** [pd.DataFrame()]. *)
Definition DataFrame_empty : DataFrame := {| columns := []; rows := [] |}.

(** [df.empty]: some axis has length 0. *)
Definition empty (df : DataFrame) : bool :=
  match columns df, rows df with
  | _ :: _, _ :: _ => false
  | _, _ => true
  end.

(** ** Exceptions, events and the monad of the program *)

Inductive exn :=
| FileNotFoundError (path : string)
| OSError (path : string)
| UnicodeDecodeError (path : string)
| ReError (pattern : string).

Inductive outcome (A : Type) :=
| Ret (a : A)
| Raise (e : exn).

Arguments Ret {A} a.
Arguments Raise {A} e.

Inductive level := INFO | WARNING | ERROR.

(** The messages of the program, without their formatting. *)
Inductive message :=
| LogFileNotFound (path : string)      (* "Log file not found: {log_file}" *)
| AnalysisError (e : exn)   (* "An error occurred during log analysis: {e}" *)
| InvalidLimit   (* "Invalid limit value. Please provide a positive integer." *)
| SavedTo (path : string)             (* "Analysis results saved to: {path}" *)
| NoData         (* "No data to display/save.  Check log file or parameters." *)
| Unexpected (e : exn).             (* "An unexpected error occurred: {e}" *)

Inductive event :=
| Line (line : str)                     (* an iteration of the loop begins *)
| Search (field : string) (line : str)  (* a call of [re.search] *)
| Log (l : level) (m : message)
| Print (df : DataFrame)                (* [print(df.to_string())] *)
| ToCsv (path : string) (df : DataFrame).  (* [df.to_csv(path, index=False)] *)

(** A computation: the events it emits, in order, and how it ends. *)
Definition M (A : Type) : Type := list event * outcome A.

Definition ret {A} (a : A) : M A := ([], Ret a).

Definition raise {A} (e : exn) : M A := ([], Raise e).

Definition emit (ev : event) : M unit := ([ev], Ret tt).

Definition bind {A B} (m : M A) (f : A -> M B) : M B :=
  match m with
  | (t, Ret a) => let (t', o) := f a in (t ++ t', o)
  | (t, Raise e) => (t, Raise e)
  end.

(** [try: m except Exception as e: handler e]. *)
Definition try_except {A} (m : M A) (handler : exn -> M A) : M A :=
  match m with
  | (t, Raise e) => let (t', o) := handler e in (t ++ t', o)
  | _ => m
  end.

Notation "x <- m ;; k" := (bind m (fun x => k))
  (at level 61, m at next level, right associativity).
Notation "m ;; k" := (bind m (fun _ => k))
  (at level 61, right associativity).

Definition trace {A} (m : M A) : list event := fst m.
Definition result {A} (m : M A) : outcome A := snd m.

(** ** The outside world *)

Inductive file :=
| Absent                 (* no such file *)
| Unreadable             (* exists, cannot be opened for reading *)
| NotText                (* opens, is not UTF-8 *)
| Text (content : str).

Record world := {
  files : string -> file;
  writable : string -> bool
}.

(** [with open(path, "r", encoding="utf-8") as f: lines = f.readlines()]. *)
Definition open_readlines (w : world) (path : string) : M (list str) :=
  match files w path with
  | Absent => raise (FileNotFoundError path)
  | Unreadable => raise (OSError path)
  | NotText => raise (UnicodeDecodeError path)
  | Text content => ret (readlines content)
  end.

Definition to_csv (w : world) (df : DataFrame) (path : string) : M unit :=
  if writable w path then emit (ToCsv path df) else raise (OSError path).

(** ** The [re] library as the program uses it *)

(** A compiled pattern is its search function; [re_compile] gives [None]
    where [re] raises [re.error]. *)
Class ReLibrary := {
  re_compile : string -> option (str -> option Match)
}.

(** [re.search(pattern, line)] for a pattern given as text. *)
Definition re_search `{ReLibrary} (pattern : string) (line : str)
  : M (option Match) :=
  match re_compile pattern with
  | Some find => ret (find line)
  | None => raise (ReError pattern)
  end.

(** The library of this file. *)
Definition sre : ReLibrary :=
  {| re_compile := fun p => option_map search (Parse.parse p) |}.

(** The three patterns of the program, parsed. *)

Definition digits (lo hi : ascii) : regex := InSet false [IRange lo hi].

(** [\s] and [\d] *)
Definition WHITESPACE : regex := InSet false [ICategory Space false].

Definition DECIMAL : regex := InSet false [ICategory Digit false].

Definition opt (r : regex) : regex := MaxRepeat 0 (Some 1) r.

Definition plus (r : regex) : regex := MaxRepeat 1 None r.

Definition star (r : regex) : regex := MaxRepeat 0 None r.

(** [Literal] characters one after the other, then [k]. *)
Definition word (w : string) (k : regex) : regex :=
  fold_right (fun c r => Seq (Literal c) r) k (list_ascii_of_string w).

(** [25[0-5]|2[0-4][0-9]|[01]?[0-9][0-9]?] *)
Definition OCTET : regex :=
  Branch (word "25" (digits "0" "5"))
    (Branch (word "2" (Seq (digits "0" "4") (digits "0" "9")))
       (Seq (opt (InSet false [IChar "0"; IChar "1"]))
          (Seq (digits "0" "9") (opt (digits "0" "9"))))).

Definition IPV4_PATTERN : string :=
  "\b(?:(?:25[0-5]|2[0-4][0-9]|[01]?[0-9][0-9]?)\.){3}(?:25[0-5]|2[0-4][0-9]|[01]?[0-9][0-9]?)\b".

Definition IPV4 : regex :=
  Seq (At AtBoundary)
    (Seq (MaxRepeat 3 (Some 3) (Seq OCTET (Literal ".")))
       (Seq OCTET (At AtBoundary))).

Definition ERROR_CODE_PATTERN : string := "ERROR\s+(\d+)".

Definition ERROR_CODE : regex :=
  word "ERROR" (Seq (plus WHITESPACE) (Subpattern 1 (plus DECIMAL))).

Definition USER_AGENT_PATTERN : string := "User-Agent:\s*(.+)".

Definition USER_AGENT : regex :=
  word "User-Agent:" (Seq (star WHITESPACE) (Subpattern 1 (plus AnyChar))).

(** ** The program *)

(** Truth value of an optional string and of an optional integer. *)
Definition truthy_str (o : option string) : option string :=
  match o with
  | Some "" => None
  | _ => o
  end.

Definition truthy_int (o : option Z) : option Z :=
  match o with
  | Some 0%Z => None
  | _ => o
  end.

Section Program.

Context {re : ReLibrary}.

(** The body of the loop of [analyze_log_file]. *)
Definition process_line (pattern : option string)
           (ip_address error_codes user_agents : bool) (line : str)
  : M dict :=
  emit (Line line) ;;
  let entry : dict := [] in
  let entry := dict_set entry "log_entry" (PyStr (strip line)) in
  entry <-
    match truthy_str pattern with
    | Some p =>
        emit (Search "pattern_match" line) ;;
        found <- re_search p line ;;
        match found with
        | Some m => ret (dict_set entry "pattern_match" (value_of (group m 0)))
        | None => ret (dict_set entry "pattern_match" PyNone)
        end
    | None => ret entry
    end ;;
  entry <-
    (if ip_address then
       emit (Search "ip_address" line) ;;
       match search IPV4 line with
       | Some m => ret (dict_set entry "ip_address" (value_of (group m 0)))
       | None => ret (dict_set entry "ip_address" PyNone)
       end
     else ret entry) ;;
  entry <-
    (if error_codes then
       emit (Search "error_code" line) ;;
       match search ERROR_CODE line with
       | Some m => ret (dict_set entry "error_code" (value_of (group m 1)))
       | None => ret (dict_set entry "error_code" PyNone)
       end
     else ret entry) ;;
  entry <-
    (if user_agents then
       emit (Search "user_agent" line) ;;
       match search USER_AGENT line with
       | Some m => ret (dict_set entry "user_agent" (value_of (group m 1)))
       | None => ret (dict_set entry "user_agent" PyNone)
       end
     else ret entry) ;;
  ret entry.

(** [for line in lines: ...; data.append(entry)]. *)
Fixpoint for_lines (body : str -> M dict) (lines : list str)
         (data : list dict) : M (list dict) :=
  match lines with
  | [] => ret data
  | line :: more =>
      entry <- body line ;;
      for_lines body more (data ++ [entry])
  end.

Definition analyze_log_file (w : world) (log_file : string)
           (pattern : option string) (limit : option Z)
           (ip_address error_codes user_agents : bool) : M DataFrame :=
  try_except
    (lines <- open_readlines w log_file ;;
     let lines :=
       match truthy_int limit with
       | Some n => slice_to lines n
       | None => lines
       end in
     data <- for_lines
               (process_line pattern ip_address error_codes user_agents)
               lines [] ;;
     ret (DataFrame_of_records data))
    (fun e =>
       match e with
       | FileNotFoundError _ =>
           emit (Log ERROR (LogFileNotFound log_file)) ;;
           ret DataFrame_empty
       | _ =>
           emit (Log ERROR (AnalysisError e)) ;;
           ret DataFrame_empty
       end).

(** What [setup_argparse] returns. *)
Record Namespace := {
  args_log_file : string;
  args_pattern : option string;
  args_output : option string;
  args_limit : option Z;
  args_ip_address : bool;
  args_error_codes : bool;
  args_user_agents : bool
}.

(** [main] from the line after [args = setup_argparse()] on (main.py,
    lines 101 to 130): the parsed arguments are given.  [setup_argparse],
    which leaves through [SystemExit] on a command line that it refuses, is
    not modelled.  The two [isinstance(..., str)] checks and
    [isinstance(args.limit, int)] hold for every [Namespace]. *)
Definition main (w : world) (args : Namespace) : M unit :=
  if match args_limit args with
     | Some n => (n <=? 0)%Z
     | None => false
     end
  then emit (Log ERROR InvalidLimit)
  else
    try_except
      (df <- analyze_log_file w (args_log_file args) (args_pattern args)
               (args_limit args) (args_ip_address args)
               (args_error_codes args) (args_user_agents args) ;;
       if negb (empty df) then
         match truthy_str (args_output args) with
         | Some path =>
             to_csv w df path ;;
             emit (Log INFO (SavedTo path))
         | None => emit (Print df)
         end
       else emit (Log WARNING NoData))
      (fun e => emit (Log ERROR (Unexpected e))).

End Program.

(** ** Vocabulary of the statements *)

Definition DOT : ascii := "."%char.

(** The field that a run of [process_line] stores under [k]. *)
Definition field (m : M dict) (k : string) : option value :=
  match result m with
  | Ret entry => dict_get entry k
  | Raise _ => None
  end.

(** The record that a run of the loop body returns. *)
Definition entry_of (m : M dict) : dict :=
  match result m with
  | Ret entry => entry
  | Raise _ => []
  end.

(** What the program stores for the outcome of a search: group [g] of the
    match, or [None]. *)
Definition stored (found : option Match) (g : nat) : value :=
  match found with
  | Some m => value_of (group m g)
  | None => PyNone
  end.

(** The lines that the loop goes through. *)
Definition retained (limit : option Z) (lines : list str) : list str :=
  match truthy_int limit with
  | Some n => slice_to lines n
  | None => lines
  end.

(** A world with one file, [app.log]. *)
Definition world_with (f : file) : world :=
  {| files := fun path => if String.eqb path "app.log" then f else Absent;
     writable := fun _ => true |}.

(** The lines on which the loop body was started, in order. *)
Fixpoint lines_of (t : list event) : list str :=
  match t with
  | [] => []
  | Line l :: t' => l :: lines_of t'
  | _ :: t' => lines_of t'
  end.

(** The field set that the arguments announce. *)
Definition fields (pattern : option string)
           (ip_address error_codes user_agents : bool) : list string :=
  ["log_entry"]
    ++ (match truthy_str pattern with Some _ => ["pattern_match"] | None => [] end)
    ++ (if ip_address then ["ip_address"] else [])
    ++ (if error_codes then ["error_code"] else [])
    ++ (if user_agents then ["user_agent"] else []).

(** The pattern, when one is in use, compiles. *)
Definition pattern_ok `{ReLibrary} (pattern : option string) : Prop :=
  match truthy_str pattern with
  | Some p => re_compile p <> None
  | None => True
  end.

(** What a run stores under [pattern_match], when the rule is in use and
    the pattern compiles. *)
Definition custom_value `{ReLibrary} (pattern : option string) (line : str)
  : option value :=
  match truthy_str pattern with
  | Some p =>
      match re_compile p with
      | Some find => Some (stored (find line) 0)
      | None => None
      end
  | None => None
  end.

(** The record of a line, field by field. *)
Definition record (custom : option value)
           (ip_address error_codes user_agents : bool) (line : str) : dict :=
  [("log_entry", PyStr (strip line))]
    ++ (match custom with Some v => [("pattern_match", v)] | None => [] end)
    ++ (if ip_address
        then [("ip_address", stored (search IPV4 line) 0)] else [])
    ++ (if error_codes
        then [("error_code", stored (search ERROR_CODE line) 1)] else [])
    ++ (if user_agents
        then [("user_agent", stored (search USER_AGENT line) 1)] else []).

(** An error was logged, and no line had been touched before it. *)
Definition reported_before_lines (t : list event) : Prop :=
  exists t1 m t2,
    t = t1 ++ Log ERROR m :: t2 /\
    forall ev, In ev t1 ->
               match ev with Line _ | Search _ _ => False | _ => True end.

Definition starts_with (f : ascii -> bool) (x : str) : bool :=
  match x with
  | c :: _ => f c
  | [] => false
  end.

Definition ends_with (f : ascii -> bool) (x : str) : bool :=
  starts_with f (rev x).

Definition all (f : ascii -> bool) (x : str) : Prop := forallb f x = true.

(** The number that a string of decimal digits writes. *)
Definition decimal (g : str) : nat :=
  fold_left (fun n c => 10 * n + (ord c - 48)) g 0.

(** [s'] is [s] after the characters [q]. *)
Definition Moves (s : state) (q : str) (s' : state) : Prop :=
  rest s = q ++ rest s' /\ before s' = rev q ++ before s /\ caps s' = caps s.

Definition ERROR_TOKEN : str := list_ascii_of_string "ERROR".

Definition USER_AGENT_TOKEN : str := list_ascii_of_string "User-Agent:".

(** One to three digits that write a number of at most 255. *)
Definition octet (g : str) : Prop :=
  1 <= length g <= 3 /\ all isdecimal g /\ decimal g <= 255.

Definition dotted_quad (q : str) : Prop :=
  exists a b c d,
    q = a ++ DOT :: b ++ DOT :: c ++ DOT :: d /\
    octet a /\ octet b /\ octet c /\ octet d.

(** [q] is a dotted quad of [line], between [pre] and [post]. *)
Definition quad_at (line pre q post : str) : Prop :=
  line = pre ++ q ++ post /\ dotted_quad q.

(** ... with no word character right before or right after it. *)
Definition delimited_quad_at (line pre q post : str) : Prop :=
  quad_at line pre q post /\
  ends_with isword pre = false /\ starts_with isword post = false.

(** [ERROR], white space [ws], digits [ds] in [line] after [pre]. *)
Definition error_code_at (line pre ws ds post : str) : Prop :=
  line = pre ++ ERROR_TOKEN ++ ws ++ ds ++ post /\
  ws <> [] /\ all isspace ws /\ ds <> [] /\ all isdecimal ds.

(** [User-Agent:] in [line] after [pre], followed by [x]. *)
Definition user_agent_at (line pre x : str) : Prop :=
  line = pre ++ USER_AGENT_TOKEN ++ x.

Definition first_user_agent_at (line pre x : str) : Prop :=
  user_agent_at line pre x /\
  forall pre' x', user_agent_at line pre' x' -> length pre <= length pre'.

(** The longest prefix of [x] made of characters that satisfy [f], and what
    comes after it. *)
Fixpoint take_while (f : ascii -> bool) (x : str) : str :=
  match x with
  | [] => []
  | c :: t => if f c then c :: take_while f t else []
  end.

Fixpoint drop_while (f : ascii -> bool) (x : str) : str :=
  match x with
  | [] => []
  | c :: t => if f c then drop_while f t else x
  end.

Definition not_LF (c : ascii) : bool := negb (Ascii.eqb c LF).

(** The characters up to the end of the line. *)
Definition until_LF (x : str) : str := take_while not_LF x.

(** [x], when [w ++ x] is [y]. *)
Fixpoint without_prefix (w y : str) : option str :=
  match w, y with
  | [], _ => Some y
  | c :: w', d :: y' => if Ascii.eqb c d then without_prefix w' y' else None
  | _ :: _, [] => None
  end.

Definition nonempty (x : str) : option str :=
  match x with
  | [] => None
  | _ => Some x
  end.

(** What [\s*(.+)] captures in [x]: the white space gives characters back
    until one that is not a line feed is left for the group. *)
Fixpoint captured_after (x : str) : option str :=
  match x with
  | [] => None
  | c :: t =>
      if isspace c then
        match captured_after t with
        | Some u => Some u
        | None => nonempty (until_LF x)
        end
      else nonempty (until_LF x)
  end.

(** Some character of [x] is not in [y]. *)
Definition has_char_outside (x y : str) : Prop :=
  exists c, In c x /\ ~ In c y.

(** Inputs of the examples. *)

Definition ten_lines : str :=
  list_ascii_of_string
    "l0
l1
l2
l3
l4
l5
l6
l7
l8
l9
".

Definition missing_args : Namespace :=
  {| args_log_file := "nope.log"; args_pattern := None;
     args_output := Some "out.csv"; args_limit := Some 3%Z;
     args_ip_address := true; args_error_codes := false;
     args_user_agents := false |}.

Definition two_lines : str :=
  list_ascii_of_string
    "GET / from 10.0.0.7
nothing here
".

(** ** Vocabulary of the further properties *)

(** The limit passes the check of [main]. *)
Definition limit_ok (limit : option Z) : Prop :=
  match limit with
  | Some n => (0 < n)%Z
  | None => True
  end.

(** [analyze_log_file] on the arguments of [main]. *)
Definition analysis `{ReLibrary} (w : world) (args : Namespace) : M DataFrame :=
  analyze_log_file w (args_log_file args) (args_pattern args) (args_limit args)
    (args_ip_address args) (args_error_codes args) (args_user_agents args).

Definition zero_limit_args : Namespace :=
  {| args_log_file := "app.log"; args_pattern := None;
     args_output := Some "out.csv"; args_limit := Some 0%Z;
     args_ip_address := true; args_error_codes := true;
     args_user_agents := true |}.

Definition save_args : Namespace :=
  {| args_log_file := "app.log"; args_pattern := None;
     args_output := Some "out.csv"; args_limit := Some 1%Z;
     args_ip_address := true; args_error_codes := false;
     args_user_agents := false |}.

Definition print_args : Namespace :=
  {| args_log_file := "app.log"; args_pattern := None;
     args_output := Some ""; args_limit := None;
     args_ip_address := false; args_error_codes := false;
     args_user_agents := false |}.

Definition read_only (f : file) : world :=
  {| files := fun path => if String.eqb path "app.log" then f else Absent;
     writable := fun _ => false |}.

Definition bad_pattern_args : Namespace :=
  {| args_log_file := "app.log"; args_pattern := Some "(";
     args_output := Some "out.csv"; args_limit := Some 5%Z;
     args_ip_address := true; args_error_codes := true;
     args_user_agents := true |}.

(** A line as [readlines] gives it: text without line feed or carriage
    return, ended by a line feed or, for a last line that is not empty, by
    nothing. *)
Definition line_shape (l : str) : Prop :=
  exists body,
    ~ In LF body /\ ~ In CR body /\
    (l = body ++ [LF] \/ (l = body /\ body <> [])).

Definition ends_with_LF (l : str) : Prop := exists body, l = body ++ [LF].

(** [s'] is further on in the subject of [s]. *)
Definition Forward (s s' : state) : Prop :=
  exists q, rest s = q ++ rest s' /\ before s' = rev q ++ before s.

(** [m] is a piece of [line]. *)
Definition piece_of (m line : str) : Prop :=
  exists pre post, line = pre ++ m ++ post.

(** * The patterns of the program

    The parsed forms are what the parser makes of the pattern texts of
    [main.py]. *)

Lemma IPV4_parsed : Parse.parse IPV4_PATTERN = Some IPV4.
Proof. reflexivity. Qed.

Lemma ERROR_CODE_parsed : Parse.parse ERROR_CODE_PATTERN = Some ERROR_CODE.
Proof. reflexivity. Qed.

Lemma USER_AGENT_parsed : Parse.parse USER_AGENT_PATTERN = Some USER_AGENT.
Proof. reflexivity. Qed.

(** * Facts about the matcher *)

Lemma Moves_nil s : Moves s [] s.
Proof. repeat split. Qed.

Lemma Moves_app {s q1 s1 q2 s2} :
  Moves s q1 s1 -> Moves s1 q2 s2 -> Moves s (q1 ++ q2) s2.
Proof.
  intros (R1 & B1 & C1) (R2 & B2 & C2). repeat split.
  - rewrite R1, R2. now rewrite app_assoc.
  - rewrite B2, B1, rev_app_distr. now rewrite app_assoc.
  - congruence.
Qed.

Lemma Moves_cons s c q s' :
  Moves s (c :: q) s' <->
  Moves s [c] (State (c :: before s) (q ++ rest s') (caps s)) /\
  Moves (State (c :: before s) (q ++ rest s') (caps s)) q s'.
Proof.
  unfold Moves; simpl. split.
  - intros (R & B & C). rewrite <- app_assoc in B. simpl in B. tauto.
  - intros ((R & _) & (_ & B & C)). rewrite <- app_assoc. simpl. tauto.
Qed.

Lemma Moves_consumed {s q s'} : Moves s q s' -> consumed s s' = q.
Proof.
  intros (R & _). unfold consumed. rewrite R, length_app.
  replace (length q + length (rest s') - length (rest s')) with (length q) by lia.
  rewrite firstn_app, firstn_all, Nat.sub_diag. simpl. apply app_nil_r.
Qed.

Lemma Moves_state {s q s'} :
  Moves s q s' -> s' = State (rev q ++ before s) (rest s') (caps s).
Proof. destruct s'; unfold Moves; simpl. intros (_ & -> & ->). reflexivity. Qed.

Lemma In_step f s s' :
  In s' (step f s) <-> exists c, f c = true /\ Moves s [c] s'.
Proof.
  unfold step, Moves. destruct s as [b r k]; simpl. split.
  - destruct r as [|c t]; [intros []|]. destruct (f c) eqn:F; [|intros []].
    intros [<-|[]]. exists c. simpl. auto.
  - intros (c & F & R & B & C). destruct s' as [b' r' k']; simpl in *. subst.
    rewrite F. now left.
Qed.

Lemma In_Literal c s s' :
  In s' (results (Literal c) s) <-> Moves s [c] s'.
Proof.
  simpl. rewrite In_step. split.
  - intros (x & E & M). apply Ascii.eqb_eq in E. now subst.
  - intros M. exists c. split; [apply Ascii.eqb_refl|assumption].
Qed.

Lemma In_InSet n items s s' :
  In s' (results (InSet n items) s) <->
  exists c, in_set n items c = true /\ Moves s [c] s'.
Proof. simpl. apply In_step. Qed.

Lemma In_At a s s' :
  In s' (results (At a) s) <-> s' = s /\ at_holds a s = true.
Proof.
  simpl. destruct (at_holds a s); simpl; intuition congruence.
Qed.

Lemma In_Seq a b s s' :
  In s' (results (Seq a b) s) <->
  exists s1, In s1 (results a s) /\ In s' (results b s1).
Proof. simpl. apply in_flat_map. Qed.

Lemma In_Branch a b s s' :
  In s' (results (Branch a b) s) <->
  In s' (results a s) \/ In s' (results b s).
Proof. simpl. apply in_app_iff. Qed.

Lemma In_opt r s s' :
  In s' (results (opt r) s) <->
  (In s' (results r s) /\ progressed s s' = true) \/ s' = s.
Proof.
  unfold opt. simpl. rewrite in_app_iff, in_flat_map. split.
  - intros [(s1 & I & H)|[<-|[]]]; auto.
    destruct (progressed s s1) eqn:P; [|destruct H].
    destruct H as [<-|[]]. auto.
  - intros [(I & P)| ->]; [left|right; now left].
    exists s'. rewrite P. split; [assumption|now left].
Qed.

Lemma In_thrice r s s' :
  In s' (results (MaxRepeat 3 (Some 3) r) s) <->
  exists s1 s2, In s1 (results r s) /\ In s2 (results r s1) /\
                In s' (results r s2).
Proof.
  simpl. rewrite in_flat_map. split.
  - intros (s1 & I1 & H). apply in_flat_map in H. destruct H as (s2 & I2 & H).
    apply in_flat_map in H. destruct H as (s3 & I3 & [<-|[]]). eauto.
  - intros (s1 & s2 & I1 & I2 & I3). exists s1. split; [assumption|].
    apply in_flat_map. exists s2. split; [assumption|].
    apply in_flat_map. exists s'. split; [assumption|now left].
Qed.

Lemma Moves_progressed {s c q s'} : Moves s (c :: q) s' -> progressed s s' = true.
Proof.
  intros (R & _). unfold progressed. rewrite R. simpl. apply Nat.ltb_lt.
  rewrite length_app. lia.
Qed.

(** ** Characters *)

Lemma ord_inj c d : ord c = ord d -> c = d.
Proof.
  unfold ord. intros E.
  rewrite <- (ascii_nat_embedding c), <- (ascii_nat_embedding d). now rewrite E.
Qed.

Lemma between_spec lo hi c : between lo hi c = true <-> lo <= ord c <= hi.
Proof.
  unfold between. rewrite andb_true_iff, !Nat.leb_le. tauto.
Qed.

Lemma in_range lo hi c :
  in_set false [IRange lo hi] c = true <-> ord lo <= ord c <= ord hi.
Proof.
  change (in_set false [IRange lo hi] c)
    with (between (ord lo) (ord hi) c || false).
  rewrite orb_false_r. apply between_spec.
Qed.

Lemma isdecimal_spec c : isdecimal c = true <-> 48 <= ord c <= 57.
Proof. apply between_spec. Qed.

Lemma in_01 c :
  in_set false [IChar "0"; IChar "1"] c = true <-> 48 <= ord c <= 49.
Proof.
  change (in_set false [IChar "0"; IChar "1"] c)
    with (Ascii.eqb "0" c || (Ascii.eqb "1" c || false)).
  rewrite orb_false_r, orb_true_iff, !Ascii.eqb_eq. split.
  - intros [<-|<-]; vm_compute; lia.
  - intros H. assert (ord c = 48 \/ ord c = 49) as [E|E] by lia.
    + left. apply ord_inj. now rewrite E.
    + right. apply ord_inj. now rewrite E.
Qed.

(** ** The octet pattern *)

Ltac open_in :=
  repeat match goal with
  | H : In _ (results (Branch _ _) _) |- _ => apply In_Branch in H; destruct H as [H|H]
  | H : In _ (results (Seq _ _) _) |- _ =>
      apply In_Seq in H; let s := fresh "s" in destruct H as (s & ? & ?)
  | H : In _ (results (Literal _) _) |- _ => apply In_Literal in H
  | H : In _ (results (InSet _ _) _) |- _ =>
      apply In_InSet in H; let c := fresh "c" in destruct H as (c & ? & ?)
  | H : In _ (results (opt _) _) |- _ =>
      apply In_opt in H; destruct H as [(H & _)| ->]
  | H : in_set false [IRange _ _] _ = true |- _ => apply in_range in H
  | H : in_set false [IChar "0"; IChar "1"] _ = true |- _ => apply in_01 in H
  end.

Lemma decimal_1 a : decimal [a] = ord a - 48.
Proof. reflexivity. Qed.
Lemma decimal_2 a b : decimal [a; b] = 10 * (ord a - 48) + (ord b - 48).
Proof. unfold decimal. simpl. lia. Qed.
Lemma decimal_3 a b c :
  decimal [a; b; c] = 100 * (ord a - 48) + 10 * (ord b - 48) + (ord c - 48).
Proof. unfold decimal. simpl. lia. Qed.

Lemma octet_1 a : octet [a] <-> 48 <= ord a <= 57.
Proof.
  unfold octet, all. simpl. rewrite andb_true_r, isdecimal_spec, decimal_1.
  split; [tauto|]. intros. repeat split; lia.
Qed.

Lemma octet_2 a b : octet [a; b] <-> 48 <= ord a <= 57 /\ 48 <= ord b <= 57.
Proof.
  unfold octet, all. simpl.
  rewrite andb_true_r, !andb_true_iff, !isdecimal_spec, decimal_2.
  split; [tauto|]. intros. repeat split; lia.
Qed.

Lemma octet_3 a b c :
  octet [a; b; c] <->
  48 <= ord a <= 57 /\ 48 <= ord b <= 57 /\ 48 <= ord c <= 57 /\
  100 * (ord a - 48) + 10 * (ord b - 48) + (ord c - 48) <= 255.
Proof.
  unfold octet, all. simpl.
  rewrite andb_true_r, !andb_true_iff, !isdecimal_spec, decimal_3.
  split; [tauto|]. intros. repeat split; lia.
Qed.

Lemma Moves_2 {s a s1 b s2} :
  Moves s [a] s1 -> Moves s1 [b] s2 -> Moves s [a; b] s2.
Proof. intros A B. exact (Moves_app A B). Qed.
Lemma Moves_3 {s a s1 b s2 c s3} :
  Moves s [a] s1 -> Moves s1 [b] s2 -> Moves s2 [c] s3 -> Moves s [a; b; c] s3.
Proof.
  intros A B C. exact (Moves_app A (Moves_app B C)).
Qed.

Lemma OCTET_sound s s' :
  In s' (results OCTET s) -> exists g, octet g /\ Moves s g s'.
Proof.
  intros H. unfold OCTET, word, digits in H. simpl fold_right in H.
  change (ord "0") with 48 in *. 
  open_in.
  all: change (ord "0"%char) with 48 in *; change (ord "5"%char) with 53 in *;
       change (ord "4"%char) with 52 in *; change (ord "9"%char) with 57 in *.
  all: try match goal with
    | A : Moves ?s [?a] ?s1, B : Moves ?s1 [?b] ?s2, C : Moves ?s2 [?c] ?s3 |- _ =>
        exists [a; b; c]; split; [apply octet_3|apply (Moves_3 A B C)]
    end.
  all: try match goal with
    | A : Moves ?s [?a] ?s1, B : Moves ?s1 [?b] ?s2 |- _ =>
        exists [a; b]; split; [apply octet_2|apply (Moves_2 A B)]
    end.
  all: try match goal with
    | A : Moves ?s [?a] ?s1 |- _ =>
        exists [a]; split; [apply octet_1|apply A]
    end.
  all: try (change (ord "2"%char) with 50; change (ord "5"%char) with 53; lia).
Qed.

Lemma octet_cases {g} :
  octet g ->
  (exists a, g = [a]) \/ (exists a b, g = [a; b]) \/ (exists a b c, g = [a; b; c]).
Proof.
  intros ((L1 & L3) & _). destruct g as [|a [|b [|c [|d g]]]]; simpl in *;
    try lia; eauto 6.
Qed.

Lemma In_range_intro lo hi {c s s'} :
  ord lo <= ord c <= ord hi -> Moves s [c] s' ->
  In s' (results (InSet false [IRange lo hi]) s).
Proof. intros H M. apply In_InSet. exists c. split; [now apply in_range|assumption]. Qed.

Lemma Moves_lit {s c s'} d :
  ord c = ord d -> Moves s [c] s' -> In s' (results (Literal d) s).
Proof. intros E M. apply In_Literal. now rewrite <- (ord_inj _ _ E). Qed.

Lemma OCTET_complete {s g s'} :
  octet g -> Moves s g s' -> In s' (results OCTET s).
Proof.
  intros O M. unfold OCTET, word, digits. simpl fold_right.
  apply In_Branch.
  destruct (octet_cases O) as [(a & ->)|[(a & b & ->)|(a & b & c & ->)]].
  - apply octet_1 in O. right. apply In_Branch. right.
    apply In_Seq. exists s. split; [apply In_opt; now right|].
    apply In_Seq. exists s'. split.
    + apply (In_range_intro "0" "9" (c := a)); [exact O|exact M].
    + apply In_opt. now right.
  - apply octet_2 in O. right. apply In_Branch. right.
    apply Moves_cons in M. destruct M as (M1 & M2).
    apply In_Seq. exists s. split; [apply In_opt; now right|].
    apply In_Seq. eexists. split.
    + apply (In_range_intro "0" "9" (c := a)); [apply O|exact M1].
    + apply In_opt. left. split.
      * apply (In_range_intro "0" "9" (c := b)); [apply O|exact M2].
      * apply (Moves_progressed M2).
  - apply octet_3 in O.
    apply Moves_cons in M. destruct M as (M1 & M).
    apply Moves_cons in M. destruct M as (M2 & M3).
    assert (ord a <= 49 \/ (ord a = 50 /\ ord b <= 52) \/
            (ord a = 50 /\ ord b = 53 /\ ord c <= 53)) as [A|[(A & B)|(A & B & C)]]
      by lia.
    + right. apply In_Branch. right.
      apply In_Seq. eexists. split.
      { apply In_opt. left. split; [|apply (Moves_progressed M1)].
        apply In_InSet. exists a. split; [apply in_01; lia|exact M1]. }
      apply In_Seq. eexists. split.
      { apply (In_range_intro "0" "9" (c := b)); [apply O|exact M2]. }
      apply In_opt. left. split; [|apply (Moves_progressed M3)].
      apply (In_range_intro "0" "9" (c := c)); [apply O|exact M3].
    + right. apply In_Branch. left.
      apply In_Seq. eexists. split; [apply (Moves_lit "2"%char A M1)|].
      apply In_Seq. eexists. split.
      { apply (In_range_intro "0" "4" (c := b)); [|exact M2].
        change (ord "0") with 48; change (ord "4") with 52. lia. }
      apply (In_range_intro "0" "9" (c := c)); [apply O|exact M3].
    + left.
      apply In_Seq. eexists. split; [apply (Moves_lit "2"%char A M1)|].
      apply In_Seq. eexists. split; [apply (Moves_lit "5"%char B M2)|].
      apply (In_range_intro "0" "5" (c := c)); [|exact M3].
      change (ord "0") with 48; change (ord "5") with 53. lia.
Qed.

Lemma In_IPV4 s s' :
  In s' (results IPV4 s) <->
  at_holds AtBoundary s = true /\ at_holds AtBoundary s' = true /\
  exists q, dotted_quad q /\ Moves s q s'.
Proof.
  unfold IPV4. rewrite In_Seq. split.
  - intros (s0 & H0 & H). apply In_At in H0. destruct H0 as (-> & B0).
    apply In_Seq in H. destruct H as (s3 & H3 & H).
    apply In_thrice in H3. destruct H3 as (s1 & s2 & H1 & H2 & H3).
    apply In_Seq in H. destruct H as (s4 & H4 & H5).
    apply In_At in H5. destruct H5 as (-> & B4).
    apply In_Seq in H1, H2, H3.
    destruct H1 as (t1 & O1 & D1), H2 as (t2 & O2 & D2), H3 as (t3 & O3 & D3).
    apply In_Literal in D1, D2, D3.
    apply OCTET_sound in O1, O2, O3, H4.
    destruct O1 as (a & Oa & Ma), O2 as (b & Ob & Mb), O3 as (c & Oc & Mc),
             H4 as (d & Od & Md).
    repeat split; try assumption.
    exists (a ++ DOT :: b ++ DOT :: c ++ DOT :: d). split.
    + exists a, b, c, d. auto.
    + apply (Moves_app Ma). apply (Moves_app D1).
      apply (Moves_app Mb). apply (Moves_app D2).
      apply (Moves_app Mc). apply (Moves_app D3). exact Md.
  - intros (B0 & B4 & q & (a & b & c & d & -> & Oa & Ob & Oc & Od) & M).
    exists s. split; [now apply In_At|].
    assert (split : forall s g q' s', Moves s (g ++ DOT :: q') s' ->
              exists s1 s2, Moves s g s1 /\ Moves s1 [DOT] s2 /\ Moves s2 q' s').
    { clear. intros s g q' s' (R & B & C).
      exists (State (rev g ++ before s) (DOT :: q' ++ rest s') (caps s)).
      exists (State (DOT :: rev g ++ before s) (q' ++ rest s') (caps s)).
      unfold Moves; simpl. rewrite R, B, rev_app_distr, <- !app_assoc. simpl.
      rewrite <- !app_assoc. simpl. auto 10. }
    apply split in M. destruct M as (s1 & t1 & Ma & D1 & M).
    apply split in M. destruct M as (s2 & t2 & Mb & D2 & M).
    apply split in M. destruct M as (s3 & t3 & Mc & D3 & Md).
    apply In_Seq. exists t3. split.
    + apply In_thrice. exists t1, t2. repeat split; apply In_Seq.
      * exists s1. split; [apply (OCTET_complete Oa Ma)|now apply In_Literal].
      * exists s2. split; [apply (OCTET_complete Ob Mb)|now apply In_Literal].
      * exists s3. split; [apply (OCTET_complete Oc Mc)|now apply In_Literal].
    + apply In_Seq. exists s'. split; [apply (OCTET_complete Od Md)|].
      now apply In_At.
Qed.

Lemma isdecimal_isword c : isdecimal c = true -> isword c = true.
Proof. intros H. unfold isword, isalnum. now rewrite H. Qed.

Lemma octet_head g : octet g -> starts_with isdecimal g = true.
Proof.
  intros ((L & _) & A & _). destruct g as [|c g]; simpl in *; [lia|].
  unfold all in A. simpl in A. now apply andb_true_iff in A.
Qed.

Lemma all_app f x y : all f (x ++ y) <-> all f x /\ all f y.
Proof. unfold all. rewrite forallb_app, andb_true_iff. tauto. Qed.

Lemma all_rev f x : all f x -> all f (rev x).
Proof.
  unfold all. rewrite !forallb_forall. intros H c I. apply H.
  now apply in_rev.
Qed.

Lemma octet_last g : octet g -> starts_with isdecimal (rev g) = true.
Proof.
  intros ((L & _) & A & _). apply all_rev in A.
  assert (length (rev g) = length g) as E by apply length_rev.
  destruct (rev g) as [|c r]; simpl in *; [lia|].
  unfold all in A. simpl in A. now apply andb_true_iff in A.
Qed.

Lemma starts_with_app f x y :
  starts_with f x = true -> starts_with f (x ++ y) = true.
Proof. destruct x; simpl; [discriminate|auto]. Qed.

Lemma starts_with_weaken (f g : ascii -> bool) x :
  (forall c, f c = true -> g c = true) ->
  starts_with f x = true -> starts_with g x = true.
Proof. destruct x; simpl; auto. Qed.

Lemma quad_head {q} : dotted_quad q -> starts_with isword q = true.
Proof.
  intros (a & b & c & d & -> & Oa & _).
  apply starts_with_app.
  apply starts_with_weaken with (f := isdecimal); [apply isdecimal_isword|].
  now apply octet_head.
Qed.

Lemma quad_last {q} : dotted_quad q -> starts_with isword (rev q) = true.
Proof.
  intros (a & b & c & d & -> & _ & _ & _ & Od).
  replace (a ++ DOT :: b ++ DOT :: c ++ DOT :: d)
    with ((a ++ DOT :: b ++ DOT :: c ++ [DOT]) ++ d)
    by (rewrite <- !app_assoc; simpl; rewrite <- !app_assoc; simpl;
        now rewrite <- !app_assoc).
  rewrite rev_app_distr.
  apply starts_with_app.
  apply starts_with_weaken with (f := isdecimal); [apply isdecimal_isword|].
  now apply octet_last.
Qed.

Lemma boundary_spec s :
  at_holds AtBoundary s =
  xorb (starts_with isword (before s)) (starts_with isword (rest s)).
Proof. reflexivity. Qed.

(** The pattern at a position: a delimited dotted quad begins there. *)
Lemma In_IPV4_start pre post s' :
  In s' (results IPV4 (State (rev pre) post [])) <->
  exists q, dotted_quad q /\ post = q ++ rest s' /\
            s' = State (rev q ++ rev pre) (rest s') [] /\
            ends_with isword pre = false /\
            starts_with isword (rest s') = false.
Proof.
  rewrite In_IPV4, !boundary_spec. split.
  - intros (B0 & B1 & q & Q & M). exists q.
    pose proof (Moves_state M) as E. destruct M as (R & B & C). simpl in *.
    rewrite R, starts_with_app in B0 by apply (quad_head Q).
    rewrite B, starts_with_app in B1 by apply (quad_last Q).
    repeat split; try assumption.
    + unfold ends_with. now destruct (starts_with isword (rev pre)).
    + now destruct (starts_with isword (rest s')).
  - intros (q & Q & R & E & B0 & B1). unfold ends_with in B0.
    assert (before s' = rev q ++ rev pre) as B by (rewrite E; reflexivity).
    assert (caps s' = []) as C by (rewrite E; reflexivity).
    simpl. rewrite B, R.
    rewrite !starts_with_app by (apply (quad_head Q) || apply (quad_last Q)).
    rewrite B0, B1. repeat split. exists q. split; [assumption|].
    unfold Moves. simpl. auto.
Qed.

(** ** [re.search] *)

Lemma search_from_None r ahead : forall passed,
  search_from r passed ahead = None ->
  forall pre post, ahead = pre ++ post ->
                   results r (State (rev pre ++ passed) post []) = [].
Proof.
  induction ahead as [|a ahead IH]; intros passed H pre post E; simpl in H.
  - apply eq_sym, app_eq_nil in E. destruct E as (-> & ->). simpl.
    destruct (results r (State passed [] [])); [reflexivity|discriminate].
  - destruct (results r (State passed (a :: ahead) [])) eqn:R; [|discriminate].
    destruct pre as [|p pre]; simpl in E.
    + now subst.
    + injection E as <- E. simpl. rewrite <- app_assoc. simpl.
      now apply IH.
Qed.

Lemma search_from_Some r ahead : forall passed m,
  search_from r passed ahead = Some m ->
  exists pre post s',
    ahead = pre ++ post /\
    hd_error (results r (State (rev pre ++ passed) post [])) = Some s' /\
    m = MkMatch (consumed (State (rev pre ++ passed) post []) s') (caps s') /\
    forall pre' post', ahead = pre' ++ post' -> length pre' < length pre ->
                       results r (State (rev pre' ++ passed) post' []) = [].
Proof.
  induction ahead as [|a ahead IH]; intros passed m H; simpl in H.
  - destruct (results r (State passed [] [])) as [|s' l] eqn:R; [discriminate|].
    injection H as <-. exists [], [], s'. simpl. rewrite R.
    repeat split. intros; lia.
  - destruct (results r (State passed (a :: ahead) [])) as [|s' l] eqn:R.
    + apply IH in H. destruct H as (pre & post & s' & E & Hd & M & L).
      exists (a :: pre), post, s'. simpl. rewrite <- app_assoc. simpl.
      repeat split; try assumption; [now rewrite E|].
      intros [|p pre'] post' E' Lt; simpl in *.
      * now subst.
      * injection E' as <- E'. rewrite <- app_assoc. simpl.
        apply L; [assumption|lia].
    + injection H as <-. exists [], (a :: ahead), s'. simpl. rewrite R.
      repeat split. intros; lia.
Qed.

Lemma digits_unique a : forall a' x x',
  all isdecimal a -> all isdecimal a' ->
  starts_with isdecimal x = false -> starts_with isdecimal x' = false ->
  a ++ x = a' ++ x' -> a = a' /\ x = x'.
Proof.
  unfold all.
  induction a as [|c a IH]; intros [|c' a'] x x' A A' X X' E; simpl in *.
  - auto.
  - subst x. simpl in X. apply andb_true_iff in A'. destruct A'. congruence.
  - subst x'. simpl in X'. apply andb_true_iff in A. destruct A. congruence.
  - injection E as <- E. apply andb_true_iff in A, A'.
    destruct A as (_ & A), A' as (_ & A').
    destruct (IH a' x x' A A' X X' E) as (-> & ->). auto.
Qed.

Lemma quad_unique {q q' post post'} :
  dotted_quad q -> dotted_quad q' ->
  starts_with isword post = false -> starts_with isword post' = false ->
  q ++ post = q' ++ post' -> q = q'.
Proof.
  intros (a & b & c & d & -> & Oa & Ob & Oc & Od)
         (a' & b' & c' & d' & -> & Oa' & Ob' & Oc' & Od') P P' E.
  assert (nd : forall x, starts_with isword x = false ->
                         starts_with isdecimal x = false).
  { intros [|y x]; simpl; [reflexivity|]. intros W.
    destruct (isdecimal y) eqn:D; [|reflexivity].
    apply isdecimal_isword in D. congruence. }
  rewrite <- !app_assoc in E. simpl in E.
  rewrite <- !app_assoc in E. simpl in E.
  rewrite <- !app_assoc in E. simpl in E.
  apply digits_unique in E; try (apply Oa || apply Oa' || reflexivity).
  destruct E as (<- & E). injection E as E.
  apply digits_unique in E; try (apply Ob || apply Ob' || reflexivity).
  destruct E as (<- & E). injection E as E.
  apply digits_unique in E; try (apply Oc || apply Oc' || reflexivity).
  destruct E as (<- & E). injection E as E.
  apply digits_unique in E; try (apply Od || apply Od' || now apply nd).
  destruct E as (<- & _). reflexivity.
Qed.

Lemma search_IPV4 line :
  match search IPV4 line with
  | Some m =>
      groups m = [] /\
      exists pre post,
        delimited_quad_at line pre (whole m) post /\
        forall pre' q' post',
          delimited_quad_at line pre' q' post' ->
          length pre <= length pre' /\
          (length pre' = length pre -> q' = whole m)
  | None => forall pre q post, ~ delimited_quad_at line pre q post
  end.
Proof.
  unfold search. destruct (search_from IPV4 [] line) as [m|] eqn:S.
  - apply search_from_Some in S.
    destruct S as (pre & post & s' & E & Hd & -> & L). rewrite app_nil_r in *.
    assert (In s' (results IPV4 (State (rev pre) post []))) as I.
    { destruct (results IPV4 (State (rev pre) post [])); [discriminate|].
      injection Hd as ->. now left. }
    apply In_IPV4_start in I. destruct I as (q & Q & R & Es & B0 & B1).
    assert (consumed (State (rev pre) post []) s' = q) as C.
    { apply Moves_consumed. rewrite Es. unfold Moves. simpl. auto. }
    simpl. rewrite C. split; [rewrite Es; reflexivity|].
    exists pre, (rest s'). split.
    + repeat split; try assumption. now rewrite E, R.
    + intros pre' q' post' ((E' & Q') & B0' & B1').
      assert (~ length pre' < length pre) as N.
      { intros Lt. specialize (L pre' (q' ++ post') E' Lt).
        rewrite app_nil_r in L.
        assert (In (State (rev q' ++ rev pre') post' [])
                   (results IPV4 (State (rev pre') (q' ++ post') []))) as I.
        { apply In_IPV4_start. exists q'. simpl. auto. }
        rewrite L in I. destruct I. }
      split; [lia|]. intros Len.
      assert (pre' = pre /\ q' ++ post' = q ++ rest s') as (-> & E2).
      { rewrite E, R in E'. clear - E' Len.
        revert pre' Len E'. induction pre as [|c pre IH]; intros [|c' pre'] Len E;
          simpl in *; try discriminate; auto.
        injection E as <- E. destruct (IH pre') as (-> & ?); auto. }
      apply (quad_unique Q' Q B1' B1 E2).
  - intros pre q post ((E & Q) & B0 & B1).
    pose proof (search_from_None _ _ _ S pre (q ++ post) E) as N.
    rewrite app_nil_r in N.
    assert (In (State (rev q ++ rev pre) post [])
               (results IPV4 (State (rev pre) (q ++ post) []))) as I.
    { apply In_IPV4_start. exists q. simpl. auto. }
    rewrite N in I. destruct I.
Qed.

(** ** Greedy loops over one character class *)

Lemma hd_error_app {A} (l1 l2 : list A) :
  hd_error (l1 ++ l2) =
  match hd_error l1 with Some x => Some x | None => hd_error l2 end.
Proof. destruct l1; reflexivity. Qed.

Lemma hd_error_map {A B} (g : A -> B) (l : list A) :
  hd_error (map g l) = option_map g (hd_error l).
Proof. destruct l; reflexivity. Qed.

Lemma take_drop f x : take_while f x ++ drop_while f x = x.
Proof. induction x as [|c x IH]; simpl; [|destruct (f c); simpl; rewrite ?IH]; reflexivity. Qed.

Lemma take_while_all f x : all f (take_while f x).
Proof.
  unfold all. induction x as [|c x IH]; simpl; [reflexivity|].
  destruct (f c) eqn:F; simpl; [now rewrite F|reflexivity].
Qed.

Lemma drop_while_stops f x : starts_with f (drop_while f x) = false.
Proof.
  induction x as [|c x IH]; simpl; [reflexivity|].
  destruct (f c) eqn:F; simpl; assumption.
Qed.

(** A run of [f] followed by something that does not start with [f] is the
    longest one. *)
Lemma take_while_run f w : forall t,
  all f w -> starts_with f t = false ->
  take_while f (w ++ t) = w /\ drop_while f (w ++ t) = t.
Proof.
  unfold all. induction w as [|c w IH]; intros t A T; simpl in *.
  - destruct t as [|d t]; simpl in *; [auto|]. now rewrite T.
  - apply andb_true_iff in A. destruct A as (-> & A).
    destruct (IH t A T) as (-> & ->). auto.
Qed.

Arguments star : simpl never.
Arguments plus : simpl never.

Section ClassLoops.

Variable r : regex.
Variable f : ascii -> bool.
Hypothesis r_step : forall s, results r s = step f s.

Lemma star_unfold s :
  results (star r) s =
  match rest s with
  | c :: t => if f c
              then results (star r) (State (c :: before s) t (caps s)) ++ [s]
              else [s]
  | [] => [s]
  end.
Proof.
  unfold star. simpl. unfold optional.
  destruct (rest s) as [|c t] eqn:R; simpl; [reflexivity|].
  rewrite r_step. unfold step. rewrite R.
  destruct (f c); simpl; [|reflexivity].
  unfold progressed. simpl. rewrite R. simpl.
  replace (length t <? S (length t)) with true
    by (symmetry; apply Nat.ltb_lt; lia).
  now rewrite app_nil_r.
Qed.

Lemma plus_unfold s :
  results (plus r) s =
  match rest s with
  | c :: t => if f c then results (star r) (State (c :: before s) t (caps s))
              else []
  | [] => []
  end.
Proof.
  unfold plus, star. simpl. rewrite r_step. unfold step.
  destruct (rest s) as [|c t]; [reflexivity|].
  destruct (f c); simpl; [|reflexivity]. now rewrite app_nil_r.
Qed.

(** The first result of a greedy loop is the longest run. *)
Lemma star_first x : forall s,
  rest s = x ->
  hd_error (results (star r) s) =
  Some (State (rev (take_while f x) ++ before s) (drop_while f x) (caps s)).
Proof.
  induction x as [|c x IH]; intros s R; rewrite star_unfold, R;
    cbn [take_while drop_while].
  - destruct s; simpl in *. now subst.
  - destruct (f c) eqn:F.
    + rewrite hd_error_app, (IH (State (c :: before s) x (caps s)) eq_refl).
      cbn [rev before caps]. now rewrite <- app_assoc.
    + destruct s; simpl in *. now subst.
Qed.

Lemma plus_first s :
  hd_error (results (plus r) s) =
  match take_while f (rest s) with
  | [] => None
  | w => Some (State (rev w ++ before s) (drop_while f (rest s)) (caps s))
  end.
Proof.
  rewrite plus_unfold. destruct (rest s) as [|c t]; [reflexivity|].
  cbn [take_while drop_while]. destruct (f c); [|reflexivity].
  rewrite (star_first t (State (c :: before s) t (caps s)) eq_refl).
  cbn [rev before caps]. now rewrite <- app_assoc.
Qed.

Lemma Seq_star k s :
  results (Seq (star r) k) s = flat_map (results k) (results (star r) s).
Proof. reflexivity. Qed.

(** When what follows cannot start with a character of the class, only
    the longest run counts. *)
Lemma star_then k x : forall s,
  (forall s', starts_with f (rest s') = true -> results k s' = []) ->
  rest s = x ->
  results (Seq (star r) k) s =
  results k (State (rev (take_while f x) ++ before s) (drop_while f x)
                   (caps s)).
Proof.
  intros s K. revert s.
  induction x as [|c x IH]; intros s R; rewrite Seq_star, star_unfold, R;
    cbn [take_while drop_while].
  - cbn [flat_map]. rewrite app_nil_r. destruct s; simpl in *. now subst.
  - destruct (f c) eqn:F.
    + rewrite flat_map_app. cbn [flat_map].
      rewrite (K s) by (rewrite R; exact F). rewrite !app_nil_r.
      rewrite <- Seq_star, (IH (State (c :: before s) x (caps s)) eq_refl).
      cbn [rev before caps]. now rewrite <- app_assoc.
    + cbn [flat_map]. rewrite app_nil_r. destruct s; simpl in *. now subst.
Qed.

End ClassLoops.

(** ** Literal words *)

Lemma state_eta s : State (before s) (rest s) (caps s) = s.
Proof. now destruct s. Qed.

Lemma fold_word w : forall k s,
  results (fold_right (fun c r => Seq (Literal c) r) k w) s =
  match without_prefix w (rest s) with
  | Some x => results k (State (rev w ++ before s) x (caps s))
  | None => []
  end.
Proof.
  induction w as [|c w IH]; intros k s.
  - simpl. now rewrite state_eta.
  - cbn [fold_right without_prefix]. 
    change (results (Seq (Literal c) ?R) s)
      with (flat_map (results R) (step (Ascii.eqb c) s)).
    unfold step. destruct (rest s) as [|d y]; [reflexivity|].
    destruct (Ascii.eqb c d) eqn:E; [|reflexivity].
    apply Ascii.eqb_eq in E. subst d. cbn [flat_map]. rewrite app_nil_r, IH.
    cbn [rest before caps rev]. now rewrite <- app_assoc.
Qed.

Lemma word_results w k s :
  results (word w k) s =
  match without_prefix (list_ascii_of_string w) (rest s) with
  | Some x => results k (State (rev (list_ascii_of_string w) ++ before s) x (caps s))
  | None => []
  end.
Proof. apply fold_word. Qed.

Lemma without_prefix_spec w : forall y x,
  without_prefix w y = Some x <-> y = w ++ x.
Proof.
  induction w as [|c w IH]; intros y x; simpl.
  - split; congruence.
  - destruct y as [|d y]; [split; discriminate|].
    destruct (Ascii.eqb c d) eqn:E.
    + apply Ascii.eqb_eq in E. subst d. rewrite IH. split; congruence.
    + apply Ascii.eqb_neq in E. split; [discriminate|congruence].
Qed.

(** ** The classes of the two patterns *)

Lemma step_ext f g s : (forall c, f c = g c) -> step f s = step g s.
Proof. intros E. unfold step. destruct (rest s); [reflexivity|]. now rewrite E. Qed.

Lemma WHITESPACE_step s : results WHITESPACE s = step isspace s.
Proof.
  apply step_ext. intros c. unfold in_set. simpl. now destruct (isspace c).
Qed.

Lemma DECIMAL_step s : results DECIMAL s = step isdecimal s.
Proof.
  apply step_ext. intros c. unfold in_set. simpl. now destruct (isdecimal c).
Qed.

Lemma AnyChar_step s : results AnyChar s = step not_LF s.
Proof. reflexivity. Qed.

Lemma isspace_not_decimal c : isspace c = true -> isdecimal c = false.
Proof.
  intros H. destruct (isdecimal c) eqn:D; [|reflexivity].
  apply isdecimal_spec in D. unfold isspace in H.
  rewrite !orb_true_iff, !between_spec, !Nat.eqb_eq in H. lia.
Qed.

Lemma consumed_take f s b k :
  consumed s (State b (drop_while f (rest s)) k) = take_while f (rest s).
Proof.
  unfold consumed. cbn [rest].
  rewrite <- (take_drop f (rest s)) at 1 3.
  rewrite length_app, Nat.add_sub, firstn_app, firstn_all, Nat.sub_diag.
  simpl. apply app_nil_r.
Qed.

(** A group around a greedy loop captures the longest run. *)
Lemma group_plus_first {r f} g s :
  (forall s, results r s = step f s) ->
  hd_error (results (Subpattern g (plus r)) s) =
  match take_while f (rest s) with
  | [] => None
  | w => Some (State (rev w ++ before s) (drop_while f (rest s))
                     ((g, w) :: caps s))
  end.
Proof.
  intros R. cbn [results]. rewrite hd_error_map, (plus_first _ _ R).
  destruct (take_while f (rest s)) as [|c w] eqn:T; [reflexivity|].
  cbn [option_map]. unfold close_group. cbn [before rest caps].
  now rewrite consumed_take, T.
Qed.

Lemma group_plus_stuck {r f} g s :
  (forall s, results r s = step f s) ->
  starts_with f (rest s) = false ->
  results (Subpattern g (plus r)) s = [].
Proof.
  intros R H. cbn [results]. rewrite (plus_unfold _ _ R).
  destruct (rest s) as [|c t]; [reflexivity|]. simpl in H. now rewrite H.
Qed.

(** ** The error-code pattern at a position *)

Lemma ERROR_CODE_first s :
  hd_error (results ERROR_CODE s) =
  match without_prefix ERROR_TOKEN (rest s) with
  | None => None
  | Some x =>
      let ws := take_while isspace x in
      let y := drop_while isspace x in
      match ws, take_while isdecimal y with
      | _ :: _, (_ :: _) as ds =>
          Some (State (rev ds ++ rev ws ++ rev ERROR_TOKEN ++ before s)
                      (drop_while isdecimal y) ((1, ds) :: caps s))
      | _, _ => None
      end
  end.
Proof.
  unfold ERROR_CODE. rewrite word_results. fold ERROR_TOKEN.
  destruct (without_prefix ERROR_TOKEN (rest s)) as [x|]; [|reflexivity].
  set (s0 := State (rev ERROR_TOKEN ++ before s) x (caps s)).
  change (results (Seq (plus WHITESPACE) ?k) s0)
    with (flat_map (results k) (results (plus WHITESPACE) s0)).
  rewrite (plus_unfold _ _ WHITESPACE_step). cbn [rest s0].
  destruct x as [|c t]; [reflexivity|]. cbn [take_while drop_while].
  destruct (isspace c) eqn:C; [|reflexivity].
  rewrite <- Seq_star.
  rewrite (star_then _ _ WHITESPACE_step) with (x := t); [|..|reflexivity].
  2: { intros s' H. apply (group_plus_stuck 1 s' DECIMAL_step).
       destruct (rest s') as [|d u]; [reflexivity|]. simpl in *.
       now apply isspace_not_decimal. }
  rewrite (group_plus_first 1 _ DECIMAL_step). cbn [rest before caps s0].
  destruct (take_while isdecimal (drop_while isspace t)); [reflexivity|].
  cbn [rev]. now rewrite <- !app_assoc.
Qed.

Lemma take_while_app_all f w t :
  all f w -> take_while f (w ++ t) = w ++ take_while f t /\
             drop_while f (w ++ t) = drop_while f t.
Proof.
  unfold all. induction w as [|c w IH]; simpl; [auto|].
  intros A. apply andb_true_iff in A. destruct A as (-> & A).
  destruct (IH A) as (-> & ->). auto.
Qed.

Lemma all_head f x : x <> [] -> all f x -> starts_with f x = true.
Proof.
  destruct x as [|c x]; [congruence|]. unfold all. simpl.
  intros _ A. now apply andb_true_iff in A.
Qed.

Lemma app_same_length {A} (p p' a a' : list A) :
  p ++ a = p' ++ a' -> length p = length p' -> p = p' /\ a = a'.
Proof.
  revert p'. induction p as [|c p IH]; intros [|c' p'] E L; simpl in *;
    try discriminate; auto.
  injection E as <- E. destruct (IH p' E) as (-> & ->); auto.
Qed.

(** An occurrence at a position makes the pattern match there. *)
Lemma error_code_at_matches {line pre ws ds post} :
  error_code_at line pre ws ds post ->
  exists x, line = pre ++ x /\
            take_while isspace (skipn 5 x) = ws /\
            take_while isdecimal (drop_while isspace (skipn 5 x))
            = ds ++ take_while isdecimal post /\
            results ERROR_CODE (State (rev pre) x []) <> [].
Proof.
  intros (E & Wn & W & Dn & D). exists (ERROR_TOKEN ++ ws ++ ds ++ post).
  assert (starts_with isspace (ds ++ post) = false) as S.
  { destruct ds as [|d ds]; [congruence|]. unfold all in D. simpl in *.
    apply andb_true_iff in D. destruct D as (D & _).
    destruct (isspace d) eqn:Sp; [|reflexivity].
    apply isspace_not_decimal in Sp. congruence. }
  destruct (take_while_run isspace ws (ds ++ post) W S) as (T1 & T2).
  destruct (take_while_app_all isdecimal ds post D) as (T3 & _).
  change (skipn 5 (ERROR_TOKEN ++ ws ++ ds ++ post)) with (ws ++ ds ++ post).
  rewrite T1, T2, T3. repeat split; try assumption.
  intros N. pose proof (ERROR_CODE_first (State (rev pre) (ERROR_TOKEN ++ ws ++ ds ++ post) [])) as F.
  rewrite N in F. cbn [rest] in F.
  replace (without_prefix ERROR_TOKEN (ERROR_TOKEN ++ ws ++ ds ++ post))
    with (Some (ws ++ ds ++ post)) in F
    by (symmetry; now apply without_prefix_spec).
  cbv zeta in F. rewrite T1, T2, T3 in F.
  destruct ws; [congruence|]. destruct ds; [congruence|]. discriminate.
Qed.

Lemma group_1 u : group (MkMatch u [(1, u)]) 1 = Some u.
Proof. reflexivity. Qed.

Lemma search_ERROR_CODE line :
  match search ERROR_CODE line with
  | Some m =>
      exists pre ws ds post,
        group m 1 = Some ds /\
        error_code_at line pre ws ds post /\
        starts_with isdecimal post = false /\
        forall pre' ws' ds' post',
          error_code_at line pre' ws' ds' post' ->
          length pre <= length pre' /\
          (length pre' = length pre ->
           starts_with isdecimal post' = false -> ds' = ds)
  | None => forall pre ws ds post, ~ error_code_at line pre ws ds post
  end.
Proof.
  unfold search. destruct (search_from ERROR_CODE [] line) as [m|] eqn:S.
  - apply search_from_Some in S.
    destruct S as (pre & x0 & s' & E & Hd & -> & L). rewrite app_nil_r in *.
    rewrite ERROR_CODE_first in Hd. cbn [rest before caps] in Hd.
    destruct (without_prefix ERROR_TOKEN x0) as [x|] eqn:P; [|discriminate].
    apply without_prefix_spec in P. cbv zeta in Hd.
    destruct (take_while isspace x) as [|w ws] eqn:W; [discriminate|].
    destruct (take_while isdecimal (drop_while isspace x)) as [|d ds] eqn:D;
      [discriminate|].
    injection Hd as <-. cbn [caps].
    exists pre, (w :: ws), (d :: ds),
      (drop_while isdecimal (drop_while isspace x)).
    split; [reflexivity|]. split; [|split].
    + unfold error_code_at. rewrite <- W, <- D. repeat split.
      * rewrite E, P. fold ERROR_TOKEN. now rewrite !take_drop.
      * rewrite W. discriminate.
      * apply take_while_all.
      * rewrite D. discriminate.
      * apply take_while_all.
    + apply drop_while_stops.
    + intros pre' ws' ds' post' O.
      destruct (error_code_at_matches O) as (x' & E' & T1 & T2 & N).
      assert (~ length pre' < length pre) as Lt.
      { intros Lt. apply N. specialize (L pre' x' E' Lt).
        now rewrite app_nil_r in L. }
      split; [lia|]. intros Len Max.
      rewrite E, P in E'. destruct (app_same_length _ _ _ _ E' (eq_sym Len)) as (_ & <-).
      change (skipn 5 (ERROR_TOKEN ++ x)) with x in T1, T2.
      rewrite D in T2. destruct post' as [|p post']; simpl in Max, T2.
      * now rewrite app_nil_r in T2.
      * rewrite Max, app_nil_r in T2. congruence.
  - intros pre ws ds post O.
    destruct (error_code_at_matches O) as (x' & E' & _ & _ & N).
    apply N. pose proof (search_from_None _ _ _ S pre x' E') as R.
    now rewrite app_nil_r in R.
Qed.

(** ** The user-agent pattern at a position *)

Lemma captured_tail x : forall s,
  rest s = x ->
  option_map caps
    (hd_error (results (Seq (star WHITESPACE) (Subpattern 1 (plus AnyChar))) s))
  = option_map (fun u => (1, u) :: caps s) (captured_after x).
Proof.
  assert (G : forall s,
             option_map caps (hd_error (results (Subpattern 1 (plus AnyChar)) s))
             = option_map (fun u => (1, u) :: caps s) (nonempty (until_LF (rest s)))).
  { intros s. rewrite (group_plus_first 1 s AnyChar_step). unfold until_LF.
    now destruct (take_while not_LF (rest s)). }
  induction x as [|c x IH]; intros s R;
    rewrite Seq_star, (star_unfold _ _ WHITESPACE_step), R.
  - cbn [flat_map]. rewrite app_nil_r, G, R. reflexivity.
  - cbn [captured_after]. destruct (isspace c).
    + rewrite flat_map_app, hd_error_app, <- Seq_star.
      specialize (IH (State (c :: before s) x (caps s)) eq_refl).
      cbn [caps] in IH.
      destruct (hd_error (results (Seq (star WHITESPACE) _) _)) as [s1|];
        destruct (captured_after x) as [u|]; try discriminate IH.
      * exact IH.
      * cbn [flat_map]. rewrite app_nil_r, G, R. reflexivity.
    + cbn [flat_map]. rewrite app_nil_r, G, R. reflexivity.
Qed.

Lemma USER_AGENT_first s :
  option_map caps (hd_error (results USER_AGENT s)) =
  match without_prefix USER_AGENT_TOKEN (rest s) with
  | Some x => option_map (fun u => (1, u) :: caps s) (captured_after x)
  | None => None
  end.
Proof.
  unfold USER_AGENT. rewrite word_results. fold USER_AGENT_TOKEN.
  destruct (without_prefix USER_AGENT_TOKEN (rest s)) as [x|]; [|reflexivity].
  now rewrite (captured_tail x).
Qed.

Lemma search_USER_AGENT line :
  match search USER_AGENT line with
  | Some m =>
      exists pre x u,
        user_agent_at line pre x /\ captured_after x = Some u /\
        group m 1 = Some u /\
        forall pre' x', user_agent_at line pre' x' ->
                        length pre' < length pre -> captured_after x' = None
  | None => forall pre x, user_agent_at line pre x -> captured_after x = None
  end.
Proof.
  assert (at_pos : forall pre x,
             results USER_AGENT (State (rev pre) (USER_AGENT_TOKEN ++ x) []) = [] ->
             captured_after x = None).
  { intros pre x N.
    pose proof (USER_AGENT_first (State (rev pre) (USER_AGENT_TOKEN ++ x) [])) as F.
    rewrite N in F. cbn [rest caps] in F.
    replace (without_prefix USER_AGENT_TOKEN (USER_AGENT_TOKEN ++ x))
      with (Some x) in F by (symmetry; now apply without_prefix_spec).
    now destruct (captured_after x). }
  unfold search. destruct (search_from USER_AGENT [] line) as [m|] eqn:S.
  - apply search_from_Some in S.
    destruct S as (pre & x0 & s' & E & Hd & -> & L). rewrite app_nil_r in *.
    pose proof (USER_AGENT_first (State (rev pre) x0 [])) as F.
    rewrite Hd in F. cbn [rest caps option_map] in F.
    destruct (without_prefix USER_AGENT_TOKEN x0) as [x|] eqn:P; [|discriminate].
    apply without_prefix_spec in P.
    destruct (captured_after x) as [u|] eqn:C; [|discriminate].
    injection F as F. exists pre, x, u. repeat split.
    + unfold user_agent_at. fold USER_AGENT_TOKEN. now rewrite E, P.
    + exact C.
    + rewrite F. reflexivity.
    + intros pre' x' O Lt. apply (at_pos pre').
      specialize (L pre' _ O Lt). now rewrite app_nil_r in L.
  - intros pre x O. apply (at_pos pre).
    pose proof (search_from_None _ _ _ S pre _ O) as R.
    now rewrite app_nil_r in R.
Qed.

(** What is captured, case by case. *)

Lemma isspace_LF : isspace LF = true.
Proof. reflexivity. Qed.

Lemma captured_text w : forall c y,
  all isspace w -> isspace c = false ->
  captured_after (w ++ c :: y) = Some (until_LF (c :: y)).
Proof.
  assert (N : forall c y, isspace c = false ->
                          nonempty (until_LF (c :: y)) = Some (until_LF (c :: y))).
  { intros c y C. unfold until_LF, not_LF. cbn [take_while].
    destruct (Ascii.eqb c LF) eqn:E; [|reflexivity].
    apply Ascii.eqb_eq in E. subst c. discriminate. }
  unfold all. induction w as [|d w IH]; intros c y W C.
  - cbn [app captured_after]. rewrite C. now apply N.
  - simpl in W. apply andb_true_iff in W. destruct W as (D & W).
    cbn [app captured_after]. rewrite D. now rewrite (IH c y W C).
Qed.

Lemma captured_none x : all (Ascii.eqb LF) x <-> captured_after x = None.
Proof.
  unfold all. induction x as [|c x IH]; [simpl; tauto|].
  cbn [forallb captured_after]. rewrite andb_true_iff, IH. split.
  - intros (E & ->). apply Ascii.eqb_eq in E. subst c. reflexivity.
  - unfold until_LF, not_LF. cbn [take_while].
    destruct (isspace c) eqn:S.
    + destruct (captured_after x); [discriminate|].
      rewrite (Ascii.eqb_sym c LF). destruct (Ascii.eqb LF c); [auto|discriminate].
    + destruct (Ascii.eqb c LF) eqn:E; [|discriminate].
      apply Ascii.eqb_eq in E. subst c. discriminate.
Qed.

Lemma captured_last_space u : forall c lfs,
  all isspace u -> isspace c = true -> c <> LF -> all (Ascii.eqb LF) lfs ->
  captured_after (u ++ c :: lfs) = Some [c].
Proof.
  unfold all. induction u as [|d u IH]; intros c lfs U C N L.
  - cbn [app captured_after]. rewrite C.
    rewrite (proj1 (captured_none lfs) L).
    unfold until_LF. cbn [take_while]. unfold not_LF at 1.
    apply Ascii.eqb_neq in N. rewrite N. cbn [negb nonempty].
    destruct lfs as [|l lfs]; [reflexivity|].
    unfold all in L. cbn [forallb] in L. apply andb_true_iff in L.
    destruct L as (L & _). apply Ascii.eqb_eq in L. subst l. reflexivity.
  - simpl in U. apply andb_true_iff in U. destruct U as (D & U).
    cbn [app captured_after]. rewrite D. now rewrite (IH c lfs U C N L).
Qed.

Lemma app_split {A} (p : list A) : forall p' a a',
  p ++ a = p' ++ a' -> length p <= length p' ->
  exists d, p' = p ++ d /\ a = d ++ a'.
Proof.
  induction p as [|c p IH]; intros p' a a' E L.
  - exists p'. auto.
  - destruct p' as [|c' p']; simpl in *; [lia|].
    injection E as <- E. destruct (IH p' a a' E) as (d & -> & ->); [lia|].
    exists d. auto.
Qed.

(** After a first [User-Agent:] that is followed by line feeds only, there is
    no second one. *)
Lemma no_later_token line pre' x' pre x :
  all (Ascii.eqb LF) x' ->
  user_agent_at line pre' x' -> user_agent_at line pre x ->
  length pre' < length pre -> False.
Proof.
  unfold user_agent_at. intros A E' E Lt. rewrite E' in E.
  apply app_split in E; [|lia]. destruct E as (d & -> & E).
  destruct d as [|c d]; [rewrite app_nil_r in Lt; lia|].
  injection E as <- E.
  assert (In "U"%char (d ++ list_ascii_of_string "User-Agent:" ++ x)) as I
    by (apply in_or_app; right; now left).
  simpl in E, I. rewrite <- E in I. simpl in I.
  repeat (destruct I as [I|I]; [discriminate I|]).
  unfold all in A. rewrite forallb_forall in A. specialize (A _ I).
  discriminate A.
Qed.

Lemma USER_AGENT_field line pre x :
  first_user_agent_at line pre x ->
  match search USER_AGENT line with
  | Some m => value_of (group m 1)
  | None => PyNone
  end = value_of (captured_after x).
Proof.
  intros (O & First). pose proof (search_USER_AGENT line) as S.
  destruct (search USER_AGENT line) as [m|].
  - destruct S as (pre0 & x0 & u & O0 & C & G & Earlier). rewrite G.
    destruct (Nat.lt_ge_cases (length pre) (length pre0)) as [Lt|Ge].
    + pose proof (Earlier pre x O Lt) as N. apply captured_none in N.
      destruct (no_later_token line pre x pre0 x0 N O O0 Lt).
    + pose proof (First _ _ O0) as Le.
      unfold user_agent_at in O, O0. rewrite O in O0.
      apply app_same_length in O0; [|lia]. destruct O0 as (_ & O0).
      apply app_inv_head in O0. subst x0. now rewrite C.
  - now rewrite (S pre x O).
Qed.

(** * Facts about the program *)

Section Runs.

Context {re : ReLibrary}.

Lemma process_line_ok pattern ip ec ua line :
  pattern_ok pattern ->
  process_line pattern ip ec ua line =
  (Line line :: map (fun k => Search k line) (tl (fields pattern ip ec ua)),
   Ret (record (custom_value pattern line) ip ec ua line)).
Proof.
  unfold pattern_ok, process_line, fields, custom_value, record, re_search, stored.
  destruct (truthy_str pattern) as [p|].
  - destruct (re_compile p) as [find|]; [intros _|congruence].
    destruct (find line), ip, (search IPV4 line), ec, (search ERROR_CODE line),
      ua, (search USER_AGENT line); reflexivity.
  - intros _.
    destruct ip, (search IPV4 line), ec, (search ERROR_CODE line),
      ua, (search USER_AGENT line); reflexivity.
Qed.

Lemma process_line_error pattern p ip ec ua line :
  truthy_str pattern = Some p -> re_compile p = None ->
  process_line pattern ip ec ua line =
  ([Line line; Search "pattern_match" line], Raise (ReError p)).
Proof.
  intros T C. unfold process_line, re_search. rewrite T, C. reflexivity.
Qed.

Lemma for_lines_ok body lines : forall data,
  (forall l, In l lines -> exists e, result (body l) = Ret e) ->
  for_lines body lines data =
  (flat_map (fun l => trace (body l)) lines,
   Ret (data ++ map (fun l => entry_of (body l)) lines)).
Proof.
  induction lines as [|l lines IH]; intros data H; simpl.
  - unfold ret. now rewrite app_nil_r.
  - destruct (H l (or_introl eq_refl)) as (e & E).
    unfold entry_of. destruct (body l) as (t, o) eqn:B. simpl in E. subst o.
    unfold bind. rewrite IH by (intros; apply H; now right).
    simpl. now rewrite <- app_assoc.
Qed.

Lemma for_lines_raise body l lines data t e :
  body l = (t, Raise e) -> for_lines body (l :: lines) data = (t, Raise e).
Proof. intros B. simpl. now rewrite B. Qed.

End Runs.

Section Tables.

Context {re : ReLibrary}.

Lemma add_new_present cs k : In k cs -> add_new cs k = cs.
Proof.
  intros I. unfold add_new.
  replace (existsb (String.eqb k) cs) with true; [reflexivity|].
  symmetry. apply existsb_exists. exists k. split; [assumption|].
  apply String.eqb_refl.
Qed.

Lemma add_all_present ks : forall cs,
  (forall k, In k ks -> In k cs) -> fold_left add_new ks cs = cs.
Proof.
  induction ks as [|k ks IH]; intros cs H; simpl; [reflexivity|].
  rewrite add_new_present by (apply H; now left).
  apply IH. intros; apply H; now right.
Qed.

Lemma columns_uniform F data : forall cs,
  Forall (fun d => keys d = F) data -> (forall k, In k F -> In k cs) ->
  fold_left (fun cs d => fold_left add_new (keys d) cs) data cs = cs.
Proof.
  induction data as [|d data IH]; intros cs U H; simpl; [reflexivity|].
  inversion U as [|? ? K U']; subst. rewrite add_all_present by assumption.
  now apply IH.
Qed.

Lemma fields_fresh pattern ip ec ua :
  fold_left add_new (fields pattern ip ec ua) [] = fields pattern ip ec ua.
Proof.
  unfold fields. destruct (truthy_str pattern), ip, ec, ua; reflexivity.
Qed.

Lemma DataFrame_uniform pattern ip ec ua data :
  data <> [] ->
  Forall (fun d => keys d = fields pattern ip ec ua) data ->
  DataFrame_of_records data =
  {| columns := fields pattern ip ec ua;
     rows := map (fun d => map (dict_get d) (fields pattern ip ec ua)) data |}.
Proof.
  intros N U. unfold DataFrame_of_records.
  assert (fold_left (fun cs d => fold_left add_new (keys d) cs) data []
          = fields pattern ip ec ua) as ->; [|reflexivity].
  destruct data as [|d data]; [congruence|].
  inversion U as [|? ? K U']; subst. cbn [fold_left]. rewrite K, fields_fresh.
  now apply columns_uniform with (F := fields pattern ip ec ua).
Qed.

Lemma keys_record pattern ip ec ua line :
  pattern_ok pattern ->
  keys (record (custom_value pattern line) ip ec ua line)
  = fields pattern ip ec ua.
Proof.
  unfold pattern_ok, custom_value, fields, record.
  destruct (truthy_str pattern) as [p|].
  - destruct (re_compile p); [intros _|congruence].
    destruct ip, ec, ua; reflexivity.
  - intros _. destruct ip, ec, ua; reflexivity.
Qed.

Lemma cells_record pattern ip ec ua line :
  pattern_ok pattern ->
  map (dict_get (record (custom_value pattern line) ip ec ua line))
      (fields pattern ip ec ua)
  = map (fun kv => Some (snd kv))
        (record (custom_value pattern line) ip ec ua line).
Proof.
  unfold pattern_ok, custom_value, fields, record.
  destruct (truthy_str pattern) as [p|].
  - destruct (re_compile p); [intros _|congruence].
    destruct ip, ec, ua; reflexivity.
  - intros _. destruct ip, ec, ua; reflexivity.
Qed.

Lemma lines_of_app t1 t2 : lines_of (t1 ++ t2) = lines_of t1 ++ lines_of t2.
Proof.
  induction t1 as [|e t1 IH]; [reflexivity|].
  destruct e; simpl; now rewrite IH.
Qed.

Lemma lines_of_searches line ks :
  lines_of (map (fun k => Search k line) ks) = [].
Proof. induction ks; simpl; auto. Qed.

(** A run on a readable file with a pattern that compiles. *)
Lemma analyze_ok w log_file content pattern limit ip ec ua :
  files w log_file = Text content -> pattern_ok pattern ->
  analyze_log_file w log_file pattern limit ip ec ua =
  (flat_map (fun l => trace (process_line pattern ip ec ua l))
            (retained limit (readlines content)),
   Ret (DataFrame_of_records
          (map (fun l => record (custom_value pattern l) ip ec ua l)
               (retained limit (readlines content))))).
Proof.
  intros F P. unfold analyze_log_file, open_readlines. rewrite F.
  unfold ret at 1. unfold bind at 1. fold (retained limit (readlines content)).
  rewrite for_lines_ok.
  2: { intros l _. rewrite (process_line_ok _ _ _ _ _ P). simpl. eauto. }
  cbn [bind ret try_except app]. rewrite app_nil_r.
  f_equal. f_equal. f_equal. apply map_ext. intros l.
  unfold entry_of. now rewrite (process_line_ok _ _ _ _ _ P).
Qed.

(** A run on a readable file with a pattern that does not compile. *)
Lemma analyze_malformed w log_file content pattern p limit ip ec ua :
  files w log_file = Text content ->
  truthy_str pattern = Some p -> re_compile p = None ->
  analyze_log_file w log_file pattern limit ip ec ua =
  match retained limit (readlines content) with
  | [] => ([], Ret DataFrame_empty)
  | first :: _ =>
      ([Line first; Search "pattern_match" first;
        Log ERROR (AnalysisError (ReError p))], Ret DataFrame_empty)
  end.
Proof.
  intros F T C. unfold analyze_log_file, open_readlines. rewrite F.
  unfold ret at 1. unfold bind at 1. fold (retained limit (readlines content)).
  destruct (retained limit (readlines content)) as [|first more].
  - reflexivity.
  - rewrite (for_lines_raise _ _ _ _ _ _ (process_line_error _ _ _ _ _ _ T C)).
    reflexivity.
Qed.

(** A run on a file that cannot be read. *)
Lemma analyze_unreadable w log_file pattern limit ip ec ua :
  match files w log_file with Text _ => False | _ => True end ->
  exists m, analyze_log_file w log_file pattern limit ip ec ua =
            ([Log ERROR m], Ret DataFrame_empty).
Proof.
  unfold analyze_log_file, open_readlines.
  destruct (files w log_file); intros H; try destruct H; eexists; reflexivity.
Qed.

End Tables.

Section MoreRuns.
Context {re : ReLibrary}.

Lemma process_line_ret pattern ip ec ua line entry :
  result (process_line pattern ip ec ua line) = Ret entry ->
  pattern_ok pattern /\
  entry = record (custom_value pattern line) ip ec ua line.
Proof.
  intros R.
  assert (pattern_ok pattern) as P.
  { unfold pattern_ok. destruct (truthy_str pattern) as [p|] eqn:T; [|exact I].
    intros C. rewrite (process_line_error _ _ ip ec ua line T C) in R.
    discriminate R. }
  split; [exact P|]. rewrite (process_line_ok _ ip ec ua line P) in R.
  simpl in R. congruence.
Qed.

Lemma retained_positive N lines :
  (0 < N)%Z -> retained (Some N) lines = firstn (Z.to_nat N) lines.
Proof.
  intros H. unfold retained, slice_to.
  destruct N as [|n|n]; try lia. cbn [truthy_int].
  now replace (Z.pos n <? 0)%Z with false by (symmetry; apply Z.ltb_ge; lia).
Qed.

Lemma lines_of_run pattern ip ec ua lines :
  pattern_ok pattern ->
  lines_of (flat_map (fun l => trace (process_line pattern ip ec ua l)) lines)
  = lines.
Proof.
  intros P. induction lines as [|l lines IH]; [reflexivity|].
  cbn [flat_map]. rewrite lines_of_app, IH, (process_line_ok _ _ _ _ _ P).
  cbn [trace fst lines_of]. now rewrite lines_of_searches.
Qed.

Lemma searches_of_run pattern ip ec ua lines k l :
  In (Search k l)
     (flat_map (fun l => trace (process_line pattern ip ec ua l)) lines) ->
  In l lines.
Proof.
  intros H. apply in_flat_map in H. destruct H as (l' & I & H).
  assert (forall t o, process_line pattern ip ec ua l' = (t, o) ->
                      In (Search k l) t -> l = l') as S.
  { intros t o E J.
    destruct (truthy_str pattern) as [p|] eqn:T.
    - destruct (re_compile p) as [f|] eqn:C.
      + assert (pattern_ok pattern) as P
          by (unfold pattern_ok; rewrite T; congruence).
        rewrite (process_line_ok _ _ _ _ _ P) in E. injection E as <- _.
        destruct J as [J|J]; [discriminate|].
        apply in_map_iff in J. destruct J as (k' & J & _). congruence.
      + rewrite (process_line_error _ _ _ _ _ _ T C) in E. injection E as <- _.
        destruct J as [J|[J|[]]]; congruence.
    - assert (pattern_ok pattern) as P by (unfold pattern_ok; now rewrite T).
      rewrite (process_line_ok _ _ _ _ _ P) in E. injection E as <- _.
      destruct J as [J|J]; [discriminate|].
      apply in_map_iff in J. destruct J as (k' & J & _). congruence. }
  destruct (process_line pattern ip ec ua l') as (t, o) eqn:E.
  now rewrite (S t o eq_refl H).
Qed.

Lemma rows_of_records data :
  rows (DataFrame_of_records data)
  = map (fun d => map (dict_get d) (columns (DataFrame_of_records data))) data.
Proof. reflexivity. Qed.

(** The table of a run that goes through [lines]. *)
Lemma table_of_lines pattern ip ec ua lines :
  pattern_ok pattern ->
  let df := DataFrame_of_records
              (map (fun l => record (custom_value pattern l) ip ec ua l) lines) in
  rows df = map (fun l => map (dict_get (entry_of (process_line pattern ip ec ua l)))
                              (fields pattern ip ec ua)) lines /\
  (lines <> [] -> columns df = fields pattern ip ec ua).
Proof.
  intros P df. subst df. destruct lines as [|l lines].
  - split; [reflexivity|congruence].
  - rewrite (DataFrame_uniform pattern ip ec ua).
    + cbn [rows columns]. split; [|reflexivity].
      rewrite map_map. apply map_ext. intros l'.
      unfold entry_of. now rewrite (process_line_ok _ _ _ _ _ P).
    + discriminate.
    + apply Forall_map, Forall_forall. intros l' _. now apply keys_record.
Qed.

End MoreRuns.

(** * The claims *)

(** C1 (amended).  A pattern that does not compile is found out by the first
    search of the first line that is gone through: the file has been read and
    cut to the limit, that line's iteration has begun, nothing has been stored
    for any rule and no other line is touched; one error is logged and the
    table is empty.  When no line is gone through, no error is reported. *)
Theorem C1_malformed_pattern {re : ReLibrary} w log_file content pattern p
        limit ip ec ua :
  files w log_file = Text content ->
  truthy_str pattern = Some p ->
  re_compile p = None ->
  analyze_log_file w log_file pattern limit ip ec ua =
  match retained limit (readlines content) with
  | [] => ([], Ret DataFrame_empty)
  | first :: _ =>
      ([Line first; Search "pattern_match" first;
        Log ERROR (AnalysisError (ReError p))], Ret DataFrame_empty)
  end.
Proof. apply analyze_malformed. Qed.

Lemma C1_malformed_pattern_witness :
  files (world_with (Text "a b")) "app.log" = Text "a b" /\
  truthy_str (Some "(") = Some "(" /\
  @re_compile sre "(" = None /\
  @analyze_log_file sre (world_with (Text "a b")) "app.log" (Some "(") None
                    true true true
  = ([Line "a b"; Search "pattern_match" "a b";
      Log ERROR (AnalysisError (ReError "("))], Ret DataFrame_empty).
Proof.
  split; [reflexivity|]. split; [reflexivity|]. split; [reflexivity|].
  exact (@C1_malformed_pattern sre (world_with (Text "a b")) "app.log" "a b"
           (Some "(") "(" None true true true eq_refl eq_refl eq_refl).
Defined.

(** C1 as stated fails: with the malformed pattern [(] and a one-line file the
    error comes after the first line's iteration and search have begun, and
    with an empty file no error is reported at all. *)
Lemma C1_counterexample :
  @re_compile sre "(" = None /\
  ~ reported_before_lines
      (trace (@analyze_log_file sre (world_with (Text "a b")) "app.log"
                (Some "(") None true true true)) /\
  ~ reported_before_lines
      (trace (@analyze_log_file sre (world_with (Text "")) "app.log"
                (Some "(") None true true true)).
Proof.
  split; [reflexivity|]. split.
  - intros (t1 & m & t2 & E & H). vm_compute in E.
    destruct t1 as [|e1 t1]; [discriminate E|].
    injection E as <- E. apply (H (Line (list_ascii_of_string "a b"))). now left.
  - intros (t1 & m & t2 & E & H). vm_compute in E.
    destruct t1; discriminate E.
Qed.

(** C5 (amended).  With a positive limit [N] and a readable file of [K]
    lines, the lines are cut to the first [min N K] before anything is
    extracted: every line that the loop begins and every search is on one of
    them.  When the pattern is absent, empty or compiles, the loop goes
    through exactly these lines in file order and the table has [min N K]
    rows, row [i] being the record of line [i].  When the pattern does not
    compile, the loop stops in the first of these lines and the table is
    empty. *)
Theorem C5_limit {re : ReLibrary} w log_file content pattern N ip ec ua :
  files w log_file = Text content ->
  (0 < N)%Z ->
  let lines := readlines content in
  let kept := firstn (Z.to_nat N) lines in
  let run := analyze_log_file w log_file pattern (Some N) ip ec ua in
  length kept = Nat.min (Z.to_nat N) (length lines) /\
  (forall l, In l (lines_of (trace run)) -> In l kept) /\
  (forall k l, In (Search k l) (trace run) -> In l kept) /\
  (pattern_ok pattern ->
   exists df,
     result run = Ret df /\
     length (rows df) = Nat.min (Z.to_nat N) (length lines) /\
     lines_of (trace run) = kept /\
     rows df =
     map (fun l => map (dict_get (entry_of (process_line pattern ip ec ua l)))
                       (fields pattern ip ec ua))
         kept) /\
  (forall p, truthy_str pattern = Some p -> re_compile p = None ->
             result run = Ret DataFrame_empty /\
             lines_of (trace run) = firstn 1 kept).
Proof.
  intros F Pos lines kept run.
  assert (Ok : pattern_ok pattern ->
               run = (flat_map (fun l => trace (process_line pattern ip ec ua l))
                               kept,
                      Ret (DataFrame_of_records
                             (map (fun l => record (custom_value pattern l)
                                                   ip ec ua l) kept)))).
  { intros P. subst run kept lines.
    now rewrite (analyze_ok _ _ _ _ _ ip ec ua F P), (retained_positive _ _ Pos). }
  assert (Bad : forall p, truthy_str pattern = Some p -> re_compile p = None ->
                run = match kept with
                      | [] => ([], Ret DataFrame_empty)
                      | first :: _ =>
                          ([Line first; Search "pattern_match" first;
                            Log ERROR (AnalysisError (ReError p))],
                           Ret DataFrame_empty)
                      end).
  { intros p T C. subst run kept lines.
    now rewrite (analyze_malformed _ _ _ _ _ (Some N) ip ec ua F T C),
      (retained_positive _ _ Pos). }
  assert (Cases : pattern_ok pattern \/
                  exists p, truthy_str pattern = Some p /\ re_compile p = None).
  { unfold pattern_ok. destruct (truthy_str pattern) as [p|]; [|now left].
    destruct (re_compile p) eqn:C; [left; congruence|right; eauto]. }
  split; [apply length_firstn|]. split; [|split; [|split]].
  - intros l H. destruct Cases as [P|(p & T & C)].
    + rewrite (Ok P) in H. cbn [trace fst] in H.
      now rewrite (lines_of_run _ ip ec ua _ P) in H.
    + rewrite (Bad p T C) in H. destruct kept as [|first more]; [destruct H|].
      destruct H as [<-|[]]. now left.
  - intros k l H. destruct Cases as [P|(p & T & C)].
    + rewrite (Ok P) in H. now apply searches_of_run in H.
    + rewrite (Bad p T C) in H. destruct kept as [|first more]; [destruct H|].
      destruct H as [H|[H|[H|[]]]]; try discriminate H.
      injection H as _ <-. now left.
  - intros P. rewrite (Ok P). eexists. split; [reflexivity|].
    destruct (table_of_lines pattern ip ec ua kept P) as (R & _).
    cbn [trace fst]. split; [|split].
    + rewrite R, length_map. apply length_firstn.
    + now apply lines_of_run.
    + exact R.
  - intros p T C. rewrite (Bad p T C).
    destruct kept as [|first more]; split; reflexivity.
Qed.

Lemma C5_limit_witness :
  files (world_with (Text ten_lines)) "app.log" = Text ten_lines /\
  (0 < 3)%Z /\
  @pattern_ok sre None /\
  length (readlines ten_lines) = 10 /\
  exists df,
    result (@analyze_log_file sre (world_with (Text ten_lines)) "app.log" None
              (Some 3%Z) false false false) = Ret df /\
    length (rows df) = 3 /\
    rows df = [[Some (PyStr "l0")]; [Some (PyStr "l1")]; [Some (PyStr "l2")]].
Proof.
  split; [reflexivity|]. split; [reflexivity|]. split; [exact I|].
  split; [reflexivity|].
  destruct (proj1 (proj2 (proj2 (proj2
              (@C5_limit sre (world_with (Text ten_lines)) "app.log" ten_lines
                 None 3%Z false false false eq_refl eq_refl)))) I)
    as (df & R & L & _ & Rows).
  exists df. split; [exact R|]. split; [exact L|]. exact Rows.
Defined.

(** C5 as stated fails: with the pattern [(], a file of ten lines and the
    limit 3, the loop begins the first line only and the table has no row. *)
Lemma C5_counterexample :
  let run := @analyze_log_file sre (world_with (Text ten_lines)) "app.log"
               (Some "(") (Some 3%Z) false false false in
  length (readlines ten_lines) = 10 /\
  result run = Ret DataFrame_empty /\
  length (rows DataFrame_empty) <> Nat.min 3 10 /\
  lines_of (trace run) = [list_ascii_of_string "l0
"].
Proof.
  intros run. split; [reflexivity|]. split; [vm_compute; reflexivity|].
  split; [discriminate|]. vm_compute. reflexivity.
Qed.

(** C6.  When the input file does not exist or cannot be opened, the run
    returns the empty table after logging one error, whatever the other
    arguments; [main] returns normally and writes no CSV file, and when the
    limit is valid it logs the error and then the no-data warning. *)
Theorem C6_unopenable {re : ReLibrary} w args :
  files w (args_log_file args) = Absent \/
  files w (args_log_file args) = Unreadable ->
  (forall pattern limit ip ec ua,
      exists m, analyze_log_file w (args_log_file args) pattern limit ip ec ua
                = ([Log ERROR m], Ret DataFrame_empty)) /\
  result (main w args) = Ret tt /\
  (forall path df, ~ In (ToCsv path df) (trace (main w args))) /\
  ((forall n, args_limit args = Some n -> (0 < n)%Z) ->
   exists m, trace (main w args) = [Log ERROR m; Log WARNING NoData]).
Proof.
  intros F.
  assert (U : match files w (args_log_file args) with
              | Text _ => False | _ => True end)
    by (destruct F as [-> | ->]; exact I).
  split; [intros; now apply analyze_unreadable|].
  unfold main.
  destruct (analyze_unreadable w (args_log_file args) (args_pattern args)
              (args_limit args) (args_ip_address args)
              (args_error_codes args) (args_user_agents args) U) as (m & ->).
  destruct (args_limit args) as [n|].
  - destruct (n <=? 0)%Z eqn:L.
    + split; [reflexivity|]. split.
      * intros path df [H|[]]. discriminate H.
      * intros V. specialize (V n eq_refl). apply Z.leb_le in L. lia.
    + split; [reflexivity|]. split.
      * intros path df [H|[H|[]]]; discriminate H.
      * intros _. now exists m.
  - split; [reflexivity|]. split.
    + intros path df [H|[H|[]]]; discriminate H.
    + intros _. now exists m.
Qed.

Lemma C6_unopenable_witness :
  files (world_with (Text "x")) (args_log_file missing_args) = Absent /\
  @main sre (world_with (Text "x")) missing_args
  = ([Log ERROR (LogFileNotFound "nope.log"); Log WARNING NoData], Ret tt) /\
  forall path df,
    ~ In (ToCsv path df) (trace (@main sre (world_with (Text "x")) missing_args)).
Proof.
  split; [reflexivity|]. split; [reflexivity|].
  exact (proj1 (proj2 (proj2
           (@C6_unopenable sre (world_with (Text "x")) missing_args
              (or_introl eq_refl))))).
Defined.

(** C7.  The field set of a run is fixed by its arguments: every record that
    the loop builds has the keys [log_entry] plus one per active rule, in that
    order, and a rule that finds no match stores [None], not a string; the
    table has these columns, and each of its rows is such a record, with a
    cell for every column. *)
Theorem C7_field_set {re : ReLibrary} w log_file pattern limit ip ec ua df :
  result (analyze_log_file w log_file pattern limit ip ec ua) = Ret df ->
  (forall line entry,
      result (process_line pattern ip ec ua line) = Ret entry ->
      keys entry = fields pattern ip ec ua /\
      (forall p find, truthy_str pattern = Some p ->
                      re_compile p = Some find -> find line = None ->
                      dict_get entry "pattern_match" = Some PyNone) /\
      (ip = true -> search IPV4 line = None ->
       dict_get entry "ip_address" = Some PyNone) /\
      (ec = true -> search ERROR_CODE line = None ->
       dict_get entry "error_code" = Some PyNone) /\
      (ua = true -> search USER_AGENT line = None ->
       dict_get entry "user_agent" = Some PyNone)) /\
  (rows df <> [] -> columns df = fields pattern ip ec ua) /\
  (forall row,
      In row (rows df) ->
      (forall cell, In cell row -> cell <> None) /\
      exists line entry,
        result (process_line pattern ip ec ua line) = Ret entry /\
        row = map (dict_get entry) (fields pattern ip ec ua)).
Proof.
  intros R. split.
  - intros line entry E. apply process_line_ret in E. destruct E as (P & ->).
    split; [now apply keys_record|].
    unfold custom_value, record, stored. repeat split.
    + intros p find T C N. rewrite T, C, N. reflexivity.
    + intros -> ->. now destruct (match truthy_str pattern with
                                   | Some p => _ | None => _ end).
    + intros -> ->. now destruct (match truthy_str pattern with
                                   | Some p => _ | None => _ end), ip.
    + intros -> ->. now destruct (match truthy_str pattern with
                                   | Some p => _ | None => _ end), ip, ec.
  - assert (Empty : df = DataFrame_empty ->
              (rows df <> [] -> columns df = fields pattern ip ec ua) /\
              (forall row, In row (rows df) ->
                 (forall cell, In cell row -> cell <> None) /\
                 exists line entry,
                   result (process_line pattern ip ec ua line) = Ret entry /\
                   row = map (dict_get entry) (fields pattern ip ec ua))).
    { intros ->. split; [intros N; now destruct N|intros row []]. }
    destruct (files w log_file) as [| | |content] eqn:F.
    1-3: apply Empty;
      destruct (analyze_unreadable w log_file pattern limit ip ec ua) as (m & A);
      [now rewrite F|rewrite A in R; simpl in R; congruence].
    destruct (truthy_str pattern) as [p|] eqn:T;
      [destruct (re_compile p) as [find|] eqn:C|].
    2: { apply Empty.
         rewrite (analyze_malformed _ _ _ _ _ limit ip ec ua F T C) in R.
         destruct (retained limit (readlines content)); simpl in R; congruence. }
    all: assert (P : pattern_ok pattern)
           by (unfold pattern_ok; rewrite T; congruence || exact I).
    all: rewrite (analyze_ok _ _ _ _ limit ip ec ua F P) in R;
         simpl in R; injection R as <-;
         destruct (table_of_lines pattern ip ec ua
                     (retained limit (readlines content)) P) as (Rows & Cols).
    all: split;
      [intros N; apply Cols; intros Z; rewrite Z in N; now apply N|].
    all: intros row I; rewrite Rows in I; apply in_map_iff in I;
         destruct I as (l & <- & _); split;
         [|exists l; eexists; split;
           [now rewrite (process_line_ok _ ip ec ua l P)|];
           unfold entry_of; now rewrite (process_line_ok _ ip ec ua l P)].
    all: unfold entry_of; rewrite (process_line_ok _ ip ec ua l P);
         cbn [result snd]; rewrite (cells_record _ ip ec ua l P);
         intros cell J; apply in_map_iff in J; destruct J as (kv & <- & _);
         discriminate.
Qed.

Lemma C7_field_set_witness :
  exists df,
    result (@analyze_log_file sre (world_with (Text two_lines)) "app.log" None
              None true false false) = Ret df /\
    columns df = ["log_entry"; "ip_address"] /\
    rows df = [[Some (PyStr "GET / from 10.0.0.7"); Some (PyStr "10.0.0.7")];
               [Some (PyStr "nothing here"); Some PyNone]] /\
    forall row, In row (rows df) -> forall cell, In cell row -> cell <> None.
Proof.
  eexists. split; [reflexivity|]. split; [reflexivity|]. split; [reflexivity|].
  intros row I.
  exact (proj1 (proj2 (proj2
           (@C7_field_set sre (world_with (Text two_lines)) "app.log" None None
              true false false _ eq_refl)) row I)).
Defined.



(** C9.  An empty pattern is no pattern: a run with the pattern [""] is the
    run without a pattern, its records have no [pattern_match] key, and a
    record has that key exactly when a non-empty pattern was given. *)
Theorem C9_empty_pattern {re : ReLibrary} :
  (forall w log_file limit ip ec ua,
      analyze_log_file w log_file (Some "") limit ip ec ua
      = analyze_log_file w log_file None limit ip ec ua) /\
  (forall ip ec ua line,
      exists entry,
        result (process_line (Some "") ip ec ua line) = Ret entry /\
        ~ In "pattern_match" (keys entry)) /\
  (forall pattern ip ec ua line entry,
      result (process_line pattern ip ec ua line) = Ret entry ->
      (In "pattern_match" (keys entry) <->
       exists p, pattern = Some p /\ p <> "")).
Proof.
  split; [reflexivity|]. split.
  - intros ip ec ua line.
    assert (P : pattern_ok (Some "")) by exact I.
    rewrite (process_line_ok _ ip ec ua line P). eexists. split; [reflexivity|].
    rewrite (keys_record _ ip ec ua line P). unfold fields. cbn [truthy_str].
    destruct ip, ec, ua; simpl; intuition discriminate.
  - intros pattern ip ec ua line entry R. apply process_line_ret in R.
    destruct R as (P & ->). rewrite (keys_record _ ip ec ua line P).
    unfold fields. destruct pattern as [[|c p]|]; cbn [truthy_str].
    + split; [destruct ip, ec, ua; simpl; intuition discriminate|].
      intros (p & E & N). congruence.
    + split; [intros _; eexists; split; [reflexivity|discriminate]|].
      intros _. right. now left.
    + split; [destruct ip, ec, ua; simpl; intuition discriminate|].
      intros (p & E & N). congruence.
Qed.

Section Fields.
Context {re : ReLibrary}.

Lemma record_log custom ip ec ua line :
  dict_get (record custom ip ec ua line) "log_entry"
  = Some (PyStr (strip line)).
Proof. reflexivity. Qed.

Lemma record_custom custom ip ec ua line :
  dict_get (record custom ip ec ua line) "pattern_match" = custom.
Proof. unfold record. destruct custom, ip, ec, ua; reflexivity. Qed.

Lemma record_ip custom ec ua line :
  dict_get (record custom true ec ua line) "ip_address"
  = Some (stored (search IPV4 line) 0).
Proof. unfold record. destruct custom, ec, ua; reflexivity. Qed.

Lemma record_ec custom ip ua line :
  dict_get (record custom ip true ua line) "error_code"
  = Some (stored (search ERROR_CODE line) 1).
Proof. unfold record. destruct custom, ip, ua; reflexivity. Qed.

Lemma record_ua custom ip ec line :
  dict_get (record custom ip ec true line) "user_agent"
  = Some (stored (search USER_AGENT line) 1).
Proof. unfold record. destruct custom, ip, ec; reflexivity. Qed.

End Fields.

(** C10.  Every search is made on the line as it was read, which is also what
    the stored values come from, while [log_entry] is the stripped line; so a
    pattern that matches trailing white space stores characters that
    [log_entry] does not have. *)
Theorem C10_raw_line {re : ReLibrary} :
  (forall pattern ip ec ua line,
      (forall k l,
          In (Search k l) (trace (process_line pattern ip ec ua line)) ->
          l = line) /\
      forall entry,
        result (process_line pattern ip ec ua line) = Ret entry ->
        dict_get entry "log_entry" = Some (PyStr (strip line)) /\
        (forall p find, truthy_str pattern = Some p ->
                        re_compile p = Some find ->
                        dict_get entry "pattern_match"
                        = Some (stored (find line) 0)) /\
        (ip = true ->
         dict_get entry "ip_address" = Some (stored (search IPV4 line) 0)) /\
        (ec = true ->
         dict_get entry "error_code" = Some (stored (search ERROR_CODE line) 1)) /\
        (ua = true ->
         dict_get entry "user_agent" = Some (stored (search USER_AGENT line) 1))) /\
  (exists (pattern : string) (line matched logged : str),
      entry_of (@process_line sre (Some pattern) false false false line)
      = [("log_entry", PyStr logged); ("pattern_match", PyStr matched)] /\
      has_char_outside matched logged).
Proof.
  split.
  - intros pattern ip ec ua line. split.
    + intros k l H.
      assert (In l [line]) as [E|[]]; [|now symmetry].
      apply (searches_of_run pattern ip ec ua [line] k l).
      cbn [flat_map]. now rewrite app_nil_r.
    + intros entry R. apply process_line_ret in R. destruct R as (P & ->).
      split; [apply record_log|]. split; [|split; [|split]].
      * intros p find T C. rewrite record_custom. unfold custom_value.
        now rewrite T, C.
      * intros ->. apply record_ip.
      * intros ->. apply record_ec.
      * intros ->. apply record_ua.
  - exists "\s+$", (list_ascii_of_string "done  
"), (list_ascii_of_string "  
"), (list_ascii_of_string "done").
    split; [vm_compute; reflexivity|].
    exists " "%char. split; [now left|].
    simpl. intuition discriminate.
Qed.

Lemma C10_raw_line_witness :
  let line : str := list_ascii_of_string "  ERROR 12  " in
  let run := @process_line sre None false true false line in
  result run = Ret (entry_of run) /\
  dict_get (entry_of run) "log_entry" = Some (PyStr "ERROR 12") /\
  dict_get (entry_of run) "error_code"
  = Some (stored (search ERROR_CODE line) 1).
Proof.
  intros line run. split; [reflexivity|].
  pose proof (proj2 (proj1 (@C10_raw_line sre) None false true false line)
                    (entry_of run) eq_refl) as (L & _ & _ & E & _).
  split; [exact L|exact (E eq_refl)].
Defined.

(** C2 (amended).  With the IPv4 rule active, [ip_address] is the leftmost
    dotted quad of the line (four groups of one to three digits, each at most
    255, separated by dots) that has no word character right before it and
    none right after it, and [None] when the line has no such dotted quad;
    for the line [192.168.1.1] it is that text and for [999.999.999.999] it
    is [None]. *)
Theorem C2_ip_address {re : ReLibrary} :
  (forall pattern ec ua line entry,
      result (process_line pattern true ec ua line) = Ret entry ->
      match dict_get entry "ip_address" with
      | Some (PyStr q) =>
          exists pre post,
            delimited_quad_at line pre q post /\
            forall pre' q' post',
              delimited_quad_at line pre' q' post' ->
              length pre <= length pre' /\
              (length pre' = length pre -> q' = q)
      | Some PyNone => forall pre q post, ~ delimited_quad_at line pre q post
      | None => False
      end) /\
  field (process_line None true false false "192.168.1.1") "ip_address"
  = Some (PyStr "192.168.1.1") /\
  field (process_line None true false false "999.999.999.999") "ip_address"
  = Some PyNone.
Proof.
  split; [|split; reflexivity].
  intros pattern ec ua line entry R. apply process_line_ret in R.
  destruct R as (_ & ->). rewrite record_ip.
  pose proof (search_IPV4 line) as S. unfold stored.
  destruct (search IPV4 line) as [m|]; [|exact S].
  destruct S as (_ & S). exact S.
Qed.

Lemma C2_ip_address_witness :
  let line : str := list_ascii_of_string "client 10.0.0.7 up" in
  let run := @process_line sre None true false false line in
  result run = Ret (entry_of run) /\
  dict_get (entry_of run) "ip_address" = Some (PyStr "10.0.0.7") /\
  exists pre post, delimited_quad_at line pre "10.0.0.7" post.
Proof.
  intros line run. split; [reflexivity|]. split; [reflexivity|].
  pose proof (proj1 (@C2_ip_address sre) None false false line (entry_of run)
                    eq_refl) as H.
  change (dict_get (entry_of run) "ip_address")
    with (Some (PyStr (list_ascii_of_string "10.0.0.7"))) in H.
  destruct H as (pre & post & H & _). exists pre, post. exact H.
Defined.

(** C2 as stated fails: [x192.168.1.1] contains the dotted quad
    [192.168.1.1], and [ip_address] is [None]. *)
Lemma C2_counterexample :
  quad_at "x192.168.1.1" "x" "192.168.1.1" "" /\
  field (@process_line sre None true false false "x192.168.1.1") "ip_address"
  = Some PyNone.
Proof.
  split; [|reflexivity]. split; [reflexivity|].
  exists (list_ascii_of_string "192"), (list_ascii_of_string "168"),
    (list_ascii_of_string "1"), (list_ascii_of_string "1").
  split; [reflexivity|].
  repeat split; vm_compute; try reflexivity; lia.
Qed.

(** C3.  With the ErrorCode rule active, [error_code] is the run of digits
    of the leftmost place where [ERROR], white space and a digit follow one
    another, taken up to the first character that is not a digit, and [None]
    when the line has no such place; for [ERROR 4042: disk full] it is
    [4042]. *)
Theorem C3_error_code {re : ReLibrary} :
  (forall pattern ip ua line entry,
      result (process_line pattern ip true ua line) = Ret entry ->
      match dict_get entry "error_code" with
      | Some (PyStr ds) =>
          exists pre ws post,
            error_code_at line pre ws ds post /\
            starts_with isdecimal post = false /\
            forall pre' ws' ds' post',
              error_code_at line pre' ws' ds' post' ->
              length pre <= length pre' /\
              (length pre' = length pre ->
               starts_with isdecimal post' = false -> ds' = ds)
      | Some PyNone =>
          forall pre ws ds post, ~ error_code_at line pre ws ds post
      | None => False
      end) /\
  field (process_line None false true false "ERROR 4042: disk full")
        "error_code"
  = Some (PyStr "4042").
Proof.
  split; [|reflexivity].
  intros pattern ip ua line entry R. apply process_line_ret in R.
  destruct R as (_ & ->). rewrite record_ec.
  pose proof (search_ERROR_CODE line) as S. unfold stored.
  destruct (search ERROR_CODE line) as [m|]; [|exact S].
  destruct S as (pre & ws & ds & post & -> & S). cbn [value_of].
  exists pre, ws, post. exact S.
Qed.

Lemma C3_error_code_witness :
  let line : str := list_ascii_of_string "12:00 ERROR  503 upstream" in
  let run := @process_line sre None false true false line in
  result run = Ret (entry_of run) /\
  dict_get (entry_of run) "error_code" = Some (PyStr "503") /\
  exists pre ws post, error_code_at line pre ws "503" post.
Proof.
  intros line run. split; [reflexivity|]. split; [reflexivity|].
  pose proof (proj1 (@C3_error_code sre) None false false line (entry_of run)
                    eq_refl) as H.
  change (dict_get (entry_of run) "error_code")
    with (Some (PyStr (list_ascii_of_string "503"))) in H.
  destruct H as (pre & ws & post & H & _). exists pre, ws, post. exact H.
Defined.

(** C4 (amended).  With the UserAgent rule active, take the first
    [User-Agent:] of the line and the text [x] after its colon.  If [x] has a
    character that is not white space, [user_agent] is [x] from its first such
    character up to the end of the line, the line feed left out and every
    other trailing character kept.  If [x] is white space only, [user_agent]
    is the last character of [x] that is not a line feed.  If [x] is empty or
    line feeds only, or if the line has no [User-Agent:], [user_agent] is
    [None].  For [User-Agent: Mozilla/5.0] it is [Mozilla/5.0]. *)
Theorem C4_user_agent {re : ReLibrary} :
  (forall pattern ip ec line entry,
      result (process_line pattern ip ec true line) = Ret entry ->
      ((forall pre x, ~ user_agent_at line pre x) ->
       dict_get entry "user_agent" = Some PyNone) /\
      (forall pre x,
          first_user_agent_at line pre x ->
          (forall w c y,
              x = w ++ c :: y -> all isspace w -> isspace c = false ->
              dict_get entry "user_agent" = Some (PyStr (until_LF (c :: y)))) /\
          (forall u c lfs,
              x = u ++ c :: lfs -> all isspace u -> isspace c = true ->
              c <> LF -> all (Ascii.eqb LF) lfs ->
              dict_get entry "user_agent" = Some (PyStr [c])) /\
          (all (Ascii.eqb LF) x ->
           dict_get entry "user_agent" = Some PyNone))) /\
  field (process_line None false false true "User-Agent: Mozilla/5.0")
        "user_agent"
  = Some (PyStr "Mozilla/5.0").
Proof.
  split; [|reflexivity].
  intros pattern ip ec line entry R. apply process_line_ret in R.
  destruct R as (_ & ->). rewrite record_ua. unfold stored. split.
  - intros No. pose proof (search_USER_AGENT line) as S.
    destruct (search USER_AGENT line) as [m|]; [|reflexivity].
    destruct S as (pre & x & _ & O & _). destruct (No pre x O).
  - intros pre x First. rewrite (USER_AGENT_field line pre x First).
    split; [|split].
    + intros w c y -> W C. now rewrite captured_text.
    + intros u c lfs -> U C N L. now rewrite captured_last_space.
    + intros L. apply captured_none in L. now rewrite L.
Qed.

Lemma C4_user_agent_witness :
  let line : str := list_ascii_of_string "User-Agent:   curl/8.0 x
" in
  let run := @process_line sre None false false true line in
  result run = Ret (entry_of run) /\
  first_user_agent_at line [] (list_ascii_of_string "   curl/8.0 x
") /\
  dict_get (entry_of run) "user_agent" = Some (PyStr "curl/8.0 x").
Proof.
  intros line run.
  assert (first_user_agent_at line [] (list_ascii_of_string "   curl/8.0 x
")) as First by (split; [reflexivity|intros; apply Nat.le_0_l]).
  assert (result run = Ret (entry_of run)) as R by (vm_compute; reflexivity).
  split; [exact R|]. split; [exact First|].
  exact (proj1 (proj2 (proj1 (@C4_user_agent sre) None false false line
                         (entry_of run) R) [] _ First)
           (list_ascii_of_string "   ") "c"%char
           (list_ascii_of_string "url/8.0 x
") eq_refl eq_refl eq_refl).
Defined.

(** C4 as stated fails: after [User-Agent:] followed by two blanks the text
    that remains once the white space is passed is empty, and [user_agent] is
    one blank; after [User-Agent:] alone the token is there and [user_agent]
    is [None]. *)
Lemma C4_counterexample :
  first_user_agent_at "User-Agent:  " "" "  " /\
  drop_while isspace "  " = [] /\
  field (@process_line sre None false false true "User-Agent:  ") "user_agent"
  = Some (PyStr " ") /\
  first_user_agent_at "User-Agent:" "" "" /\
  field (@process_line sre None false false true "User-Agent:") "user_agent"
  = Some PyNone.
Proof.
  split; [split; [reflexivity|intros; apply Nat.le_0_l]|].
  split; [reflexivity|]. split; [vm_compute; reflexivity|].
  split; [split; [reflexivity|intros; apply Nat.le_0_l]|].
  vm_compute; reflexivity.
Qed.

(** * More facts about the program *)

Section MainRuns.
Context {re : ReLibrary}.

Lemma analyze_returns w log_file pattern limit ip ec ua :
  exists df, result (analyze_log_file w log_file pattern limit ip ec ua) = Ret df.
Proof.
  unfold analyze_log_file.
  destruct (bind (open_readlines w log_file) _) as (t, [data|e]).
  - eexists. reflexivity.
  - destruct e; eexists; reflexivity.
Qed.

(** What [main] does once the analysis has returned. *)
Lemma main_after w args t df :
  limit_ok (args_limit args) ->
  analysis w args = (t, Ret df) ->
  main w args =
  if negb (empty df) then
    match truthy_str (args_output args) with
    | Some path =>
        if writable w path
        then (t ++ [ToCsv path df; Log INFO (SavedTo path)], Ret tt)
        else (t ++ [Log ERROR (Unexpected (OSError path))], Ret tt)
    | None => (t ++ [Print df], Ret tt)
    end
  else (t ++ [Log WARNING NoData], Ret tt).
Proof.
  intros L A. unfold main. unfold analysis in A. rewrite A.
  replace (match args_limit args with Some n => (n <=? 0)%Z | None => false end)
    with false.
  2: { unfold limit_ok in L. destruct (args_limit args) as [n|]; [|reflexivity].
       symmetry. apply Z.leb_gt. exact L. }
  cbn [bind]. destruct (negb (empty df)).
  - destruct (truthy_str (args_output args)) as [path|]; [|reflexivity].
    unfold to_csv. destruct (writable w path); [reflexivity|].
    cbn. now rewrite app_nil_r.
  - reflexivity.
Qed.

Lemma main_rejects_limit_fact w args n :
  args_limit args = Some n -> (n <= 0)%Z ->
  main w args = ([Log ERROR InvalidLimit], Ret tt).
Proof.
  intros L N. unfold main. rewrite L.
  now replace (n <=? 0)%Z with true by (symmetry; now apply Z.leb_le).
Qed.

Lemma empty_table pattern ip ec ua lines :
  pattern_ok pattern ->
  empty (DataFrame_of_records
           (map (fun l => record (custom_value pattern l) ip ec ua l) lines))
  = match lines with [] => true | _ => false end.
Proof.
  intros P. destruct lines as [|l lines]; [reflexivity|].
  rewrite (DataFrame_uniform pattern ip ec ua).
  - unfold empty, fields. reflexivity.
  - discriminate.
  - apply Forall_map, Forall_forall. intros l' _. now apply keys_record.
Qed.

End MainRuns.

Section MainFacts.
Context {re : ReLibrary}.

(** The analysis emits line events, search events and error logs only. *)
Lemma analyze_events w log_file pattern limit ip ec ua ev :
  In ev (trace (analyze_log_file w log_file pattern limit ip ec ua)) ->
  match ev with
  | Line _ | Search _ _ | Log ERROR _ => True
  | _ => False
  end.
Proof.
  destruct (files w log_file) as [| | |content] eqn:F.
  1-3: destruct (analyze_unreadable w log_file pattern limit ip ec ua) as (m & ->);
    [now rewrite F|intros [<-|[]]; exact I].
  destruct (truthy_str pattern) as [p|] eqn:T;
    [destruct (re_compile p) as [find|] eqn:C|].
  2: { rewrite (analyze_malformed _ _ _ _ _ limit ip ec ua F T C).
       destruct (retained limit (readlines content)); cbn [trace fst].
       - intros [].
       - intros [<-|[<-|[<-|[]]]]; exact I. }
  all: assert (P : pattern_ok pattern)
         by (unfold pattern_ok; rewrite T; congruence || exact I).
  all: rewrite (analyze_ok _ _ _ _ limit ip ec ua F P); cbn [trace fst];
       intros H; apply in_flat_map in H; destruct H as (l & _ & H);
       rewrite (process_line_ok _ ip ec ua l P) in H; cbn [trace fst] in H;
       destruct H as [<-|H]; [exact I|];
       apply in_map_iff in H; destruct H as (k & <- & _); exact I.
Qed.

End MainFacts.

(** * Further properties of [main] and [analyze_log_file] *)

(** X1.  A limit that is zero or negative stops [main] at once: one error is
    logged, the file is not read and nothing is printed or saved. *)
Theorem main_rejects_limit {re : ReLibrary} w args n :
  args_limit args = Some n -> (n <= 0)%Z ->
  main w args = ([Log ERROR InvalidLimit], Ret tt).
Proof.
  intros L N. unfold main. rewrite L.
  now replace (n <=? 0)%Z with true by (symmetry; now apply Z.leb_le).
Qed.

Lemma main_rejects_limit_witness :
  args_limit zero_limit_args = Some 0%Z /\ (0 <= 0)%Z /\
  @main sre (world_with (Text two_lines)) zero_limit_args
  = ([Log ERROR InvalidLimit], Ret tt).
Proof.
  split; [reflexivity|]. split; [lia|].
  apply (@main_rejects_limit sre (world_with (Text two_lines)) zero_limit_args
           0%Z eq_refl). lia.
Defined.

(** X2.  When the file is readable, the pattern compiles, at least one line is
    gone through and a writable output path is given, [main] writes the table
    of the analysis to that path, once, and then logs where it saved it; the
    table has the announced columns and one row per line gone through. *)
Theorem main_saves_csv {re : ReLibrary} w args content path :
  files w (args_log_file args) = Text content ->
  pattern_ok (args_pattern args) ->
  limit_ok (args_limit args) ->
  retained (args_limit args) (readlines content) <> [] ->
  truthy_str (args_output args) = Some path ->
  writable w path = true ->
  exists df,
    result (analysis w args) = Ret df /\
    main w args
    = (trace (analysis w args) ++ [ToCsv path df; Log INFO (SavedTo path)],
       Ret tt) /\
    (forall p d, In (ToCsv p d) (trace (main w args)) -> p = path /\ d = df) /\
    columns df = fields (args_pattern args) (args_ip_address args)
                        (args_error_codes args) (args_user_agents args) /\
    length (rows df) = length (retained (args_limit args) (readlines content)).
Proof.
  intros F P L N O W.
  pose proof (analyze_ok w _ _ _ (args_limit args) (args_ip_address args)
                (args_error_codes args) (args_user_agents args) F P) as A.
  pose proof (fun ev => analyze_events w (args_log_file args) (args_pattern args)
                (args_limit args) (args_ip_address args)
                (args_error_codes args) (args_user_agents args) ev) as Ev.
  fold (analysis w args) in A, Ev.
  destruct (table_of_lines (args_pattern args) (args_ip_address args)
              (args_error_codes args) (args_user_agents args)
              (retained (args_limit args) (readlines content)) P) as (R & C).
  pose proof (empty_table (args_pattern args) (args_ip_address args)
                (args_error_codes args) (args_user_agents args)
                (retained (args_limit args) (readlines content)) P) as E.
  remember (DataFrame_of_records _) as df eqn:Df in A, R, C, E.
  remember (flat_map _ _) as t eqn:Tr in A.
  exists df. rewrite A in Ev |- *. cbn [trace result fst snd] in Ev |- *.
  split; [reflexivity|].
  rewrite (main_after w args t df L A), E.
  destruct (retained (args_limit args) (readlines content)) as [|l ls] eqn:K;
    [congruence|].
  cbn [negb]. rewrite O, W. cbn [trace fst]. split; [reflexivity|].
  split; [|split].
  - intros p d H. apply in_app_or in H. destruct H as [H|[H|[H|[]]]].
    + apply Ev in H. destruct H.
    + injection H as <- <-. auto.
    + discriminate H.
  - apply C. discriminate.
  - now rewrite R, length_map.
Qed.

Lemma main_saves_csv_witness :
  let w := world_with (Text two_lines) in
  let df := {| columns := ["log_entry"; "ip_address"];
               rows := [[Some (PyStr "GET / from 10.0.0.7");
                         Some (PyStr "10.0.0.7")]] |} in
  files w (args_log_file save_args) = Text two_lines /\
  writable w "out.csv" = true /\
  exists df',
    result (@analysis sre w save_args) = Ret df' /\ df' = df /\
    forall p d, In (ToCsv p d) (trace (@main sre w save_args)) ->
                p = "out.csv" /\ d = df'.
Proof.
  intros w df. split; [reflexivity|]. split; [reflexivity|].
  destruct (@main_saves_csv sre w save_args two_lines "out.csv"
              eq_refl I eq_refl) as (df' & R & _ & Only & _).
  - vm_compute. discriminate.
  - reflexivity.
  - reflexivity.
  - exists df'. split; [exact R|]. split; [|exact Only].
    assert (result (@analysis sre w save_args) = Ret df) as R'
      by (vm_compute; reflexivity).
    rewrite R in R'. now injection R'.
Defined.

(** X3.  Without an output path, and also with the empty string as output
    path, [main] writes no file, whatever else it is given.  With a limit
    that passes its check it ends, after the events of the analysis, by
    printing the table when the table is not empty and by the no-data warning
    when it is; the table is not empty when the file is readable, the pattern
    compiles and at least one line is gone through. *)
Theorem main_prints {re : ReLibrary} w args :
  args_output args = None \/ args_output args = Some "" ->
  (forall p d, ~ In (ToCsv p d) (trace (main w args))) /\
  (limit_ok (args_limit args) ->
   exists df,
     result (analysis w args) = Ret df /\
     main w args
     = (trace (analysis w args)
          ++ [if empty df then Log WARNING NoData else Print df], Ret tt) /\
     (forall content,
         files w (args_log_file args) = Text content ->
         pattern_ok (args_pattern args) ->
         retained (args_limit args) (readlines content) <> [] ->
         empty df = false)).
Proof.
  intros O.
  assert (truthy_str (args_output args) = None) as T
    by (destruct O as [-> | ->]; reflexivity).
  pose proof (fun ev => analyze_events w (args_log_file args) (args_pattern args)
                (args_limit args) (args_ip_address args)
                (args_error_codes args) (args_user_agents args) ev) as Ev.
  destruct (analyze_returns w (args_log_file args) (args_pattern args)
              (args_limit args) (args_ip_address args)
              (args_error_codes args) (args_user_agents args)) as (df & R).
  fold (analysis w args) in Ev, R.
  destruct (analysis w args) as (t, o) eqn:A. cbn [result snd] in R. subst o.
  cbn [trace fst] in Ev.
  assert (Main : limit_ok (args_limit args) ->
                 main w args
                 = (t ++ [if empty df then Log WARNING NoData else Print df],
                    Ret tt)).
  { intros L. rewrite (main_after w args t df L A), T.
    now destruct (empty df). }
  split.
  - intros p d H.
    destruct (args_limit args) as [n|] eqn:Lim.
    + destruct (Z.leb_spec n 0) as [Le|Gt].
      * rewrite (main_rejects_limit_fact w args n Lim Le) in H.
        destruct H as [H|[]]. discriminate H.
      * rewrite Main in H by exact Gt.
        apply in_app_or in H. destruct H as [H|[H|[]]].
        -- apply Ev in H. destruct H.
        -- destruct (empty df); discriminate H.
    + rewrite Main in H by exact I.
      apply in_app_or in H. destruct H as [H|[H|[]]].
      * apply Ev in H. destruct H.
      * destruct (empty df); discriminate H.
  - intros L. exists df. split; [reflexivity|]. split; [now apply Main|].
    intros content F P N.
    pose proof (analyze_ok w _ _ _ (args_limit args) (args_ip_address args)
                  (args_error_codes args) (args_user_agents args) F P) as A'.
    fold (analysis w args) in A'. rewrite A in A'. injection A' as _ ->.
    rewrite empty_table by assumption.
    destruct (retained (args_limit args) (readlines content)); congruence.
Qed.

Lemma main_prints_witness :
  let w := world_with (Text two_lines) in
  args_output print_args = Some "" /\
  limit_ok (args_limit print_args) /\
  exists df,
    result (@analysis sre w print_args) = Ret df /\
    empty df = false /\
    @main sre w print_args
    = (trace (@analysis sre w print_args) ++ [Print df], Ret tt).
Proof.
  intros w. split; [reflexivity|]. split; [exact I|].
  destruct (proj2 (@main_prints sre w print_args (or_intror eq_refl)) I)
    as (df & R & M & E).
  assert (empty df = false) as E'.
  { apply (E two_lines eq_refl I). vm_compute. discriminate. }
  exists df. split; [exact R|]. split; [exact E'|].
  rewrite M, E'. reflexivity.
Defined.

(** X4.  When the table cannot be written to the output path, [main] catches
    the failure: it logs one error, does not log a success, and returns
    normally. *)
Theorem main_survives_write_failure {re : ReLibrary} w args content path :
  files w (args_log_file args) = Text content ->
  pattern_ok (args_pattern args) ->
  limit_ok (args_limit args) ->
  retained (args_limit args) (readlines content) <> [] ->
  truthy_str (args_output args) = Some path ->
  writable w path = false ->
  main w args
  = (trace (analysis w args) ++ [Log ERROR (Unexpected (OSError path))],
     Ret tt).
Proof.
  intros F P L N O W.
  pose proof (analyze_ok w _ _ _ (args_limit args) (args_ip_address args)
                (args_error_codes args) (args_user_agents args) F P) as A.
  fold (analysis w args) in A.
  pose proof (empty_table (args_pattern args) (args_ip_address args)
                (args_error_codes args) (args_user_agents args)
                (retained (args_limit args) (readlines content)) P) as E.
  remember (DataFrame_of_records _) as df eqn:Df in A, E.
  remember (flat_map _ _) as t eqn:Tr in A.
  rewrite (main_after w args t df L A), E, A.
  destruct (retained (args_limit args) (readlines content)) as [|l ls] eqn:K;
    [congruence|].
  cbn [negb]. now rewrite O, W.
Qed.

Lemma main_survives_write_failure_witness :
  let w := read_only (Text two_lines) in
  files w (args_log_file save_args) = Text two_lines /\
  writable w "out.csv" = false /\
  @main sre w save_args
  = (trace (@analysis sre w save_args)
       ++ [Log ERROR (Unexpected (OSError "out.csv"))], Ret tt).
Proof.
  intros w. split; [reflexivity|]. split; [reflexivity|].
  apply (@main_survives_write_failure sre w save_args two_lines "out.csv"
           eq_refl I eq_refl); [|reflexivity|reflexivity].
  vm_compute. discriminate.
Defined.

(** X5.  Once [setup_argparse] has returned its [Namespace], nothing raises:
    for every world and all arguments [analyze_log_file] returns a table, and
    the body of [main] that follows the parsing of the command line returns
    normally. *)
Theorem nothing_raises {re : ReLibrary} :
  (forall w log_file pattern limit ip ec ua,
      exists df,
        result (analyze_log_file w log_file pattern limit ip ec ua) = Ret df) /\
  (forall w args, result (main w args) = Ret tt).
Proof.
  split; [apply analyze_returns|].
  intros w args. unfold main.
  destruct (match args_limit args with Some n => (n <=? 0)%Z | None => false end);
    [reflexivity|].
  destruct (analyze_returns w (args_log_file args) (args_pattern args)
              (args_limit args) (args_ip_address args)
              (args_error_codes args) (args_user_agents args)) as (df & R).
  destruct (analyze_log_file _ _ _ _ _ _ _) as (t, o). cbn [result snd] in R.
  subst o. cbn [bind]. destruct (negb (empty df)); [|reflexivity].
  destruct (truthy_str (args_output args)) as [path|]; [|reflexivity].
  unfold to_csv. destruct (writable w path); reflexivity.
Qed.

(** X6.  The analysis logs errors only, at most one, and a run that logs
    returns the empty table; the message is "Log file not found" exactly when
    the file does not exist, any other failure is reported with its
    exception. *)
Theorem analysis_logs {re : ReLibrary} w log_file pattern limit ip ec ua :
  let run := analyze_log_file w log_file pattern limit ip ec ua in
  forall l m,
    In (Log l m) (trace run) ->
    l = ERROR /\
    result run = Ret DataFrame_empty /\
    (exists t, trace run = t ++ [Log l m] /\ forall l' m', ~ In (Log l' m') t) /\
    (m = LogFileNotFound log_file <-> files w log_file = Absent) /\
    (files w log_file <> Absent -> exists e, m = AnalysisError e).
Proof.
  intros run l m. subst run.
  destruct (files w log_file) as [| | |content] eqn:F.
  1-3: unfold analyze_log_file, open_readlines; rewrite F; cbn;
    intros [H|[]]; injection H as <- <-; split; [reflexivity|];
    split; [reflexivity|]; split;
    [exists []; split; [reflexivity|intros ? ? []]|];
    split; [split; [discriminate || reflexivity|discriminate || reflexivity]|];
    intros N; try congruence; eexists; reflexivity.
  destruct (truthy_str pattern) as [p|] eqn:T;
    [destruct (re_compile p) as [find|] eqn:C|].
  2: { rewrite (analyze_malformed _ _ _ _ _ limit ip ec ua F T C).
       destruct (retained limit (readlines content)) as [|first more];
         cbn [trace result fst snd]; [intros []|].
       intros [H|[H|[H|[]]]]; try discriminate H. injection H as <- <-.
       split; [reflexivity|]. split; [reflexivity|]. split.
       - exists [Line first; Search "pattern_match" first].
         split; [reflexivity|]. intros l' m' [H|[H|[]]]; discriminate H.
       - split; [split; discriminate|]. intros _. eexists. reflexivity. }
  all: assert (P : pattern_ok pattern)
         by (unfold pattern_ok; rewrite T; congruence || exact I).
  all: rewrite (analyze_ok _ _ _ _ limit ip ec ua F P); cbn [trace fst];
       intros H; apply in_flat_map in H; destruct H as (x & _ & H);
       rewrite (process_line_ok _ ip ec ua x P) in H; cbn [trace fst] in H;
       destruct H as [H|H]; [discriminate H|];
       apply in_map_iff in H; destruct H as (k & H & _); discriminate H.
Qed.

Lemma analysis_logs_witness :
  let run := @analyze_log_file sre (world_with (Text two_lines)) "nope.log"
               None None true false false in
  In (Log ERROR (LogFileNotFound "nope.log")) (trace run) /\
  result run = Ret DataFrame_empty.
Proof.
  intros run.
  assert (In (Log ERROR (LogFileNotFound "nope.log")) (trace run)) as H
    by (now left).
  split; [exact H|].
  exact (proj1 (proj2 (@analysis_logs sre (world_with (Text two_lines))
                         "nope.log" None None true false false _ _ H))).
Defined.

(** X7.  How [analyze_log_file] reads its limit: without a limit and with the
    limit 0 every line of the file is gone through, and with a negative limit
    [-k] all lines but the last [k] are. *)
Theorem limit_edges {re : ReLibrary} w log_file content pattern limit
        ip ec ua :
  files w log_file = Text content ->
  pattern_ok pattern ->
  let lines := readlines content in
  let run := analyze_log_file w log_file pattern limit ip ec ua in
  (limit = None \/ limit = Some 0%Z -> lines_of (trace run) = lines) /\
  (forall n, limit = Some n -> (n < 0)%Z ->
             lines_of (trace run)
             = firstn (length lines - Z.to_nat (- n)) lines) /\
  exists df, result run = Ret df /\
             length (rows df) = length (lines_of (trace run)).
Proof.
  intros F P lines run. subst run.
  rewrite (analyze_ok _ _ _ _ limit ip ec ua F P). fold lines.
  cbn [trace result fst snd]. rewrite (lines_of_run _ ip ec ua _ P).
  split; [|split].
  - intros [-> | ->]; reflexivity.
  - intros n -> N. unfold retained, slice_to.
    destruct n as [|n|n]; try lia. cbn [truthy_int].
    now replace (Z.neg n <? 0)%Z with true by (symmetry; apply Z.ltb_lt; lia).
  - eexists. split; [reflexivity|].
    now rewrite rows_of_records, !length_map.
Qed.

Lemma limit_edges_witness :
  let w := world_with (Text ten_lines) in
  files w "app.log" = Text ten_lines /\
  @pattern_ok sre None /\
  lines_of (trace (@analyze_log_file sre w "app.log" None (Some (-8)%Z)
                     false false false))
  = [list_ascii_of_string "l0
"; list_ascii_of_string "l1
"].
Proof.
  intros w. split; [reflexivity|]. split; [exact I|].
  exact (proj1 (proj2 (@limit_edges sre w "app.log" ten_lines None
                         (Some (-8)%Z) false false false eq_refl I))
           (-8)%Z eq_refl eq_refl).
Defined.

(** X8.  With a limit that passes the check of [main] (none, or a positive
    one) and a readable file of which no line is gone through (an empty file,
    for one), [main] only warns that there is no data: nothing is printed or
    saved, and a pattern that does not compile goes unnoticed. *)
Theorem main_no_lines {re : ReLibrary} w args content :
  files w (args_log_file args) = Text content ->
  limit_ok (args_limit args) ->
  retained (args_limit args) (readlines content) = [] ->
  main w args = ([Log WARNING NoData], Ret tt).
Proof.
  intros F L K.
  assert (exists df, analysis w args = ([], Ret df) /\ empty df = true)
    as (df & A & E).
  { unfold analysis.
    destruct (truthy_str (args_pattern args)) as [p|] eqn:T;
      [destruct (re_compile p) as [find|] eqn:C|].
    2: { rewrite (analyze_malformed _ _ _ _ _ (args_limit args)
                    (args_ip_address args) (args_error_codes args)
                    (args_user_agents args) F T C), K.
         eexists. split; reflexivity. }
    all: assert (P : pattern_ok (args_pattern args))
           by (unfold pattern_ok; rewrite T; congruence || exact I).
    all: rewrite (analyze_ok _ _ _ _ (args_limit args) (args_ip_address args)
                    (args_error_codes args) (args_user_agents args) F P), K.
    all: eexists; split; reflexivity. }
  now rewrite (main_after w args [] df L A), E.
Qed.

Lemma main_no_lines_witness :
  files (world_with (Text "")) (args_log_file bad_pattern_args) = Text "" /\
  readlines "" = [] /\
  @main sre (world_with (Text "")) bad_pattern_args
  = ([Log WARNING NoData], Ret tt).
Proof.
  split; [reflexivity|]. split; [reflexivity|].
  exact (@main_no_lines sre (world_with (Text "")) bad_pattern_args ""
           eq_refl eq_refl eq_refl).
Defined.

(** X9.  With a pattern that does not compile and at least one line to go
    through, [main] logs the analysis error and then the no-data warning;
    nothing is printed or saved, whatever the output path. *)
Theorem main_malformed_pattern {re : ReLibrary} w args content p first more :
  files w (args_log_file args) = Text content ->
  limit_ok (args_limit args) ->
  retained (args_limit args) (readlines content) = first :: more ->
  truthy_str (args_pattern args) = Some p ->
  re_compile p = None ->
  main w args
  = ([Line first; Search "pattern_match" first;
      Log ERROR (AnalysisError (ReError p)); Log WARNING NoData], Ret tt).
Proof.
  intros F L K T C.
  pose proof (analyze_malformed _ _ _ _ _ (args_limit args)
                (args_ip_address args) (args_error_codes args)
                (args_user_agents args) F T C) as A.
  rewrite K in A. fold (analysis w args) in A.
  now rewrite (main_after w args _ _ L A).
Qed.

Lemma main_malformed_pattern_witness :
  let w := world_with (Text two_lines) in
  files w (args_log_file bad_pattern_args) = Text two_lines /\
  @re_compile sre "(" = None /\
  @main sre w bad_pattern_args
  = ([Line "GET / from 10.0.0.7
"; Search "pattern_match" "GET / from 10.0.0.7
"; Log ERROR (AnalysisError (ReError "(")); Log WARNING NoData], Ret tt).
Proof.
  intros w. split; [reflexivity|]. split; [reflexivity|].
  exact (@main_malformed_pattern sre w bad_pattern_args two_lines "("
           _ _ eq_refl eq_refl eq_refl eq_refl eq_refl).
Defined.

(** X10.  For every line that is gone through without error there is one
    search per active rule and none for a rule that is not active, in the
    order custom pattern, IPv4, error code, user agent. *)
Theorem searches_per_line {re : ReLibrary} pattern ip ec ua line entry :
  result (process_line pattern ip ec ua line) = Ret entry ->
  trace (process_line pattern ip ec ua line)
  = Line line
      :: map (fun k => Search k line)
           ((match truthy_str pattern with
             | Some _ => ["pattern_match"] | None => [] end)
              ++ (if ip then ["ip_address"] else [])
              ++ (if ec then ["error_code"] else [])
              ++ (if ua then ["user_agent"] else [])).
Proof.
  intros R. apply process_line_ret in R. destruct R as (P & _).
  now rewrite (process_line_ok _ ip ec ua line P).
Qed.

Lemma searches_per_line_witness :
  let line : str := list_ascii_of_string "ERROR 7" in
  let run := @process_line sre (Some "R+") false true false line in
  result run = Ret (entry_of run) /\
  trace run = [Line line; Search "pattern_match" line; Search "error_code" line].
Proof.
  intros line run.
  assert (result run = Ret (entry_of run)) as R by (vm_compute; reflexivity).
  split; [exact R|].
  exact (@searches_per_line sre (Some "R+") false true false line _ R).
Defined.

(** * [str.strip] and [readlines] *)

Lemma lstrip_drop s : lstrip s = drop_while isspace s.
Proof. induction s as [|c s IH]; simpl; [|destruct (isspace c)]; auto. Qed.

Lemma prefix_head f (p t post : str) :
  t = p ++ post -> starts_with f t = false -> starts_with f p = false.
Proof. destruct p as [|c p]; [reflexivity|]. intros ->. auto. Qed.

Lemma rstrip_split s :
  s = rstrip s ++ rev (take_while isspace (rev s)) /\
  ends_with isspace (rstrip s) = false.
Proof.
  unfold rstrip, ends_with. rewrite rev_involutive, lstrip_drop. split.
  - rewrite <- rev_app_distr, take_drop. now rewrite rev_involutive.
  - apply drop_while_stops.
Qed.

(** X11.  [log_entry] is the line without the white space around it: the
    line is white space, then [log_entry], then white space, and [log_entry]
    neither begins nor ends with a white-space character. *)
Theorem log_entry_stripped {re : ReLibrary} pattern ip ec ua line entry :
  result (process_line pattern ip ec ua line) = Ret entry ->
  exists pre mid post,
    dict_get entry "log_entry" = Some (PyStr mid) /\
    line = pre ++ mid ++ post /\
    all isspace pre /\ all isspace post /\
    starts_with isspace mid = false /\ ends_with isspace mid = false.
Proof.
  intros R. apply process_line_ret in R. destruct R as (_ & ->).
  destruct (rstrip_split (lstrip line)) as (E & End).
  exists (take_while isspace line), (strip line),
    (rev (take_while isspace (rev (lstrip line)))).
  split; [apply record_log|]. unfold strip. repeat split.
  - rewrite <- E, lstrip_drop. symmetry. apply take_drop.
  - apply take_while_all.
  - apply all_rev, take_while_all.
  - apply (prefix_head isspace _ _ _ E). rewrite lstrip_drop.
    apply drop_while_stops.
  - exact End.
Qed.

Lemma log_entry_stripped_witness :
  let line : str := list_ascii_of_string "  up 10.0.0.7 
" in
  let run := @process_line sre None true false false line in
  result run = Ret (entry_of run) /\
  dict_get (entry_of run) "log_entry" = Some (PyStr "up 10.0.0.7") /\
  exists pre mid post,
    dict_get (entry_of run) "log_entry" = Some (PyStr mid) /\
    line = pre ++ mid ++ post /\ all isspace pre /\ all isspace post.
Proof.
  intros line run.
  assert (result run = Ret (entry_of run)) as R by (vm_compute; reflexivity).
  split; [exact R|]. split; [vm_compute; reflexivity|].
  destruct (@log_entry_stripped sre None true false false line _ R)
    as (pre & mid & post & G & E & A & B & _).
  exists pre, mid, post. auto.
Defined.

Lemma cut_lines_concat s : forall cur,
  concat (cut_lines cur s) = rev cur ++ s.
Proof.
  induction s as [|c s IH]; intros cur; simpl.
  - destruct cur; simpl; now rewrite ?app_nil_r.
  - destruct (Ascii.eqb c LF); simpl; rewrite IH; simpl;
      now rewrite <- app_assoc.
Qed.

Lemma cut_lines_shape s : forall cur,
  ~ In LF cur -> ~ In CR cur -> ~ In CR s ->
  Forall line_shape (cut_lines cur s).
Proof.
  induction s as [|c s IH]; intros cur L R S; simpl.
  - destruct cur as [|d u]; [constructor|].
    constructor; [|constructor]. exists (rev (d :: u)).
    rewrite <- !in_rev. repeat split; try assumption.
    right. split; [reflexivity|]. simpl.
    intros N. apply app_eq_nil in N. destruct N as (_ & N). discriminate N.
  - assert (c <> CR /\ ~ In CR s) as (Nc & Ns) by (simpl in S; tauto).
    destruct (Ascii.eqb c LF) eqn:E.
    + apply Ascii.eqb_eq in E. subst c. constructor.
      * exists (rev cur). rewrite <- !in_rev. repeat split; try assumption.
        left. reflexivity.
      * apply IH; auto.
    + apply Ascii.eqb_neq in E. apply IH; simpl; intuition congruence.
Qed.

Lemma cut_lines_ends s : forall cur ls l,
  cut_lines cur s = ls ++ [l] -> Forall ends_with_LF ls.
Proof.
  induction s as [|c s IH]; intros cur ls l E; simpl in E.
  - destruct cur; [destruct ls; discriminate E|].
    destruct ls as [|x [|y ls]]; [constructor|discriminate E|discriminate E].
  - destruct (Ascii.eqb c LF) eqn:C; [|now apply IH in E].
    apply Ascii.eqb_eq in C. subst c.
    destruct ls as [|x ls]; [constructor|].
    injection E as <- E. constructor; [|now apply IH in E].
    exists (rev cur). reflexivity.
Qed.

Lemma translate_no_CR n : forall s,
  length s <= n -> ~ In CR (translate_newlines s).
Proof.
  induction n as [|n IH]; intros s L.
  - destruct s; [intros []|simpl in L; lia].
  - destruct s as [|c s]; [intros []|]. simpl in L. simpl.
    destruct (Ascii.eqb c CR) eqn:C.
    + destruct s as [|d s]; [simpl; intuition discriminate|].
      simpl in L. destruct (Ascii.eqb d LF).
      * intros [H|H]; [discriminate H|]. apply (IH s); [lia|exact H].
      * intros [H|H]; [discriminate H|]. apply (IH (d :: s)); [simpl; lia|exact H].
    + apply Ascii.eqb_neq in C. intros [H|H]; [congruence|].
      apply (IH s); [lia|exact H].
Qed.

Lemma translate_without_CR s : ~ In CR s -> translate_newlines s = s.
Proof.
  induction s as [|c s IH]; [reflexivity|]. intros N. simpl.
  destruct (Ascii.eqb c CR) eqn:C.
  - apply Ascii.eqb_eq in C. subst c. destruct N. now left.
  - rewrite IH; [reflexivity|]. intros H. apply N. now right.
Qed.

(** X12.  Without a limit, on a readable file and with a pattern that is
    absent, empty or compiles, the analysis goes through the whole file, line
    by line and in order: the lines it handles, put end to end, are the text
    of the file (with CR LF and CR read as LF), each of them is a line in the
    sense that a line feed can only be its last character, and only the last
    one can lack it. *)
Theorem whole_file_by_lines {re : ReLibrary} w log_file content pattern
        ip ec ua :
  files w log_file = Text content ->
  pattern_ok pattern ->
  let seen :=
    lines_of (trace (analyze_log_file w log_file pattern None ip ec ua)) in
  concat seen = translate_newlines content /\
  (~ In CR content -> concat seen = content) /\
  Forall line_shape seen /\
  (forall ls l, seen = ls ++ [l] -> Forall ends_with_LF ls).
Proof.
  intros F P seen. subst seen.
  rewrite (analyze_ok _ _ _ _ None ip ec ua F P). cbn [trace fst].
  rewrite (lines_of_run _ ip ec ua _ P).
  change (retained None (readlines content)) with (readlines content).
  unfold readlines. rewrite cut_lines_concat. cbn [rev app].
  split; [reflexivity|]. split; [|split].
  - intros N. now apply translate_without_CR.
  - apply cut_lines_shape; [intros []|intros []|].
    apply (translate_no_CR (length content)). lia.
  - intros ls l. apply cut_lines_ends.
Qed.

Lemma whole_file_by_lines_witness :
  let content : str := list_ascii_of_string "a b" ++ [CR; LF]
                       ++ list_ascii_of_string "c" ++ [CR]
                       ++ list_ascii_of_string "d" in
  let w := world_with (Text content) in
  files w "app.log" = Text content /\
  lines_of (trace (@analyze_log_file sre w "app.log" None None
                     false false false))
  = [list_ascii_of_string "a b" ++ [LF]; list_ascii_of_string "c" ++ [LF];
     list_ascii_of_string "d"] /\
  concat (lines_of (trace (@analyze_log_file sre w "app.log" None None
                             false false false)))
  = translate_newlines content.
Proof.
  intros content w. split; [reflexivity|]. split; [vm_compute; reflexivity|].
  exact (proj1 (@whole_file_by_lines sre w "app.log" content None
                  false false false eq_refl I)).
Defined.

(** * The matcher only moves forward *)

Lemma Forward_refl s : Forward s s.
Proof. exists []. auto. Qed.

Lemma Forward_trans s s1 s2 : Forward s s1 -> Forward s1 s2 -> Forward s s2.
Proof.
  intros (q1 & R1 & B1) (q2 & R2 & B2). exists (q1 ++ q2). split.
  - now rewrite R1, R2, app_assoc.
  - now rewrite B2, B1, rev_app_distr, app_assoc.
Qed.

Lemma Forward_consumed s s' :
  Forward s s' -> rest s = consumed s s' ++ rest s'.
Proof.
  intros (q & R & _). unfold consumed. rewrite R at 2 3. rewrite R at 1.
  rewrite length_app, Nat.add_sub, firstn_app, firstn_all, Nat.sub_diag.
  simpl. now rewrite app_nil_r.
Qed.

Section Loops.
Variable body : state -> list state.
Hypothesis body_forward : forall s s', In s' (body s) -> Forward s s'.

Lemma more_max_forward fuel : forall s s',
  In s' (more_max body fuel s) -> Forward s s'.
Proof.
  induction fuel as [|fuel IH]; intros s s' H; simpl in H.
  - destruct H as [<-|[]]. apply Forward_refl.
  - apply in_app_or in H. destruct H as [H|[<-|[]]]; [|apply Forward_refl].
    apply in_flat_map in H. destruct H as (s1 & I1 & H).
    destruct (progressed s s1); [|destruct H].
    apply Forward_trans with s1; auto.
Qed.

Lemma more_min_forward fuel : forall s s',
  In s' (more_min body fuel s) -> Forward s s'.
Proof.
  induction fuel as [|fuel IH]; intros s s' H; simpl in H.
  - destruct H as [<-|[]]. apply Forward_refl.
  - destruct H as [<-|H]; [apply Forward_refl|].
    apply in_flat_map in H. destruct H as (s1 & I1 & H).
    destruct (progressed s s1); [|destruct H].
    apply Forward_trans with s1; auto.
Qed.

Lemma at_least_forward tail lo :
  (forall s s', In s' (tail s) -> Forward s s') ->
  forall s s', In s' (at_least body lo tail s) -> Forward s s'.
Proof.
  intros T. induction lo as [|lo IH]; intros s s' H; simpl in H; [auto|].
  apply in_flat_map in H. destruct H as (s1 & I1 & H).
  apply Forward_trans with s1; auto.
Qed.

End Loops.

Lemma step_forward f s s' : In s' (step f s) -> Forward s s'.
Proof.
  intros H. apply In_step in H. destruct H as (c & _ & R & B & _).
  exists [c]. auto.
Qed.

Lemma results_forward r : forall s s', In s' (results r s) -> Forward s s'.
Proof.
  induction r as [| c | | n items | a | a IHa b IHb | a IHa b IHb | g r IH
                  | lo hi r IH | lo hi r IH]; intros s s' H.
  - destruct H as [<-|[]]. apply Forward_refl.
  - now apply step_forward in H.
  - now apply step_forward in H.
  - now apply step_forward in H.
  - apply In_At in H. destruct H as (-> & _). apply Forward_refl.
  - apply In_Seq in H. destruct H as (s1 & H1 & H2).
    apply Forward_trans with s1; auto.
  - apply In_Branch in H. destruct H; auto.
  - cbn [results] in H. apply in_map_iff in H. destruct H as (s1 & <- & H).
    apply IH in H. destruct H as (q & R & B). exists q. auto.
  - cbn [results] in H. revert H. apply at_least_forward; [exact IH|].
    intros t t'. now apply more_max_forward.
  - cbn [results] in H. revert H. apply at_least_forward; [exact IH|].
    intros t t'. now apply more_min_forward.
Qed.

(** What [re.search] reports is a piece of the subject. *)
Lemma search_piece r line m :
  search r line = Some m -> piece_of (whole m) line.
Proof.
  unfold search. intros S. apply search_from_Some in S.
  destruct S as (pre & post & s' & E & Hd & -> & _). rewrite app_nil_r in Hd.
  assert (In s' (results r (State (rev pre) post []))) as I
    by (destruct (results r _); [discriminate|injection Hd as ->; now left]).
  apply results_forward, Forward_consumed in I. cbn [rest whole] in *.
  exists pre, (rest s'). rewrite app_nil_r. now rewrite E, I at 1.
Qed.

Lemma captured_piece x : forall u,
  captured_after x = Some u -> piece_of u x.
Proof.
  assert (N : forall y u, nonempty (until_LF y) = Some u -> piece_of u y).
  { intros y u H. exists [], (drop_while not_LF y). simpl.
    unfold until_LF in H. destruct (take_while not_LF y) eqn:T; [discriminate|].
    injection H as <-. rewrite <- T. symmetry. apply take_drop. }
  induction x as [|c x IH]; intros u H; [discriminate|].
  cbn [captured_after] in H. destruct (isspace c); [|now apply N].
  destruct (captured_after x) as [v|]; [|now apply N].
  injection H as <-. destruct (IH v eq_refl) as (pre & post & ->).
  exists (c :: pre), post. reflexivity.
Qed.

(** X13.  The program stores nothing that is not in the line: every value
    that is not [None] -- [log_entry], what a pattern accepted by the parser
    matched, the address, the error code, the user agent -- is a piece of
    the line as it was read. *)
Theorem values_are_pieces pattern ip ec ua line entry k v :
  result (@process_line sre pattern ip ec ua line) = Ret entry ->
  dict_get entry k = Some (PyStr v) ->
  piece_of v line.
Proof.
  intros R G. apply process_line_ret in R. destruct R as (P & ->).
  assert (Stored0 : forall r, stored (search r line) 0 = PyStr v ->
                              piece_of v line).
  { intros r H. unfold stored in H.
    destruct (search r line) as [m|] eqn:S; [|discriminate].
    injection H as <-. now apply search_piece with r. }
  unfold record in G.
  cbn [app dict_get] in G.
  destruct (String.eqb "log_entry" k) eqn:K0.
  { injection G as <-. destruct (rstrip_split (lstrip line)) as (E & _).
    exists (take_while isspace line),
      (rev (take_while isspace (rev (lstrip line)))).
    fold (strip line) in E. rewrite <- E, lstrip_drop. symmetry.
    apply take_drop. }
  assert (Custom : forall c, @custom_value sre pattern line = Some c ->
                             c = PyStr v -> piece_of v line).
  { unfold custom_value, pattern_ok in *. intros c H ->.
    destruct (truthy_str pattern) as [p|]; [|discriminate].
    cbn [re_compile sre] in *.
    destruct (Parse.parse p) as [r|]; [|discriminate].
    cbn [option_map] in H. injection H as H. now apply Stored0 with r. }
  assert (Ec : stored (search ERROR_CODE line) 1 = PyStr v -> piece_of v line).
  { unfold stored. pose proof (search_ERROR_CODE line) as S.
    destruct (search ERROR_CODE line) as [m|]; [|discriminate].
    destruct S as (pre & ws & ds & post & -> & (E & _) & _). cbn [value_of].
    intros H. injection H as <-.
    exists (pre ++ ERROR_TOKEN ++ ws), post. rewrite E.
    now rewrite <- !app_assoc. }
  assert (Ua : stored (search USER_AGENT line) 1 = PyStr v -> piece_of v line).
  { unfold stored. pose proof (search_USER_AGENT line) as S.
    destruct (search USER_AGENT line) as [m|]; [|discriminate].
    destruct S as (pre & x & u & E & C & -> & _). cbn [value_of].
    intros H. injection H as <-.
    destruct (captured_piece x u C) as (a & b & ->).
    exists (pre ++ USER_AGENT_TOKEN ++ a), b. rewrite E.
    now rewrite <- !app_assoc. }
  destruct (@custom_value sre pattern line) as [c|] eqn:CV, ip, ec, ua;
    cbn [app dict_get] in G;
    repeat match type of G with
      | (if String.eqb ?a k then _ else _) = _ =>
          destruct (String.eqb a k);
          [injection G as G;
           first [now apply (Custom c eq_refl)
                 |now apply (Stored0 IPV4)|now apply Ec|now apply Ua]|]
      end;
    discriminate G.
Qed.

Lemma values_are_pieces_witness :
  let line : str := list_ascii_of_string " ERROR 12 User-Agent: curl
" in
  let run := @process_line sre (Some "R+") true true true line in
  result run = Ret (entry_of run) /\
  dict_get (entry_of run) "user_agent" = Some (PyStr "curl") /\
  piece_of (list_ascii_of_string "curl") line.
Proof.
  intros line run.
  assert (result run = Ret (entry_of run)) as R by (vm_compute; reflexivity).
  assert (dict_get (entry_of run) "user_agent" = Some (PyStr "curl")) as G
    by (vm_compute; reflexivity).
  split; [exact R|]. split; [exact G|].
  exact (@values_are_pieces (Some "R+") true true true line _ "user_agent" _ R G).
Defined.

(** * The user agent of a line that was read from a file *)





